(** * Energy tariff comparison: a model of [energy_comparison.py]

    The script reads two cumulative energy counters (grid import and grid
    export) from the Home Assistant long-term statistics, turns them into
    hourly consumption, joins them with the ENTSO-E day-ahead prices and
    compares a fixed tariff with a dynamic one.

    Numbers are exact rationals ([Q]); a pandas float that is NaN is [None].
    Timestamps are whole seconds since the epoch ([Z]). *)

From Stdlib Require Import List ZArith QArith Qminmax Bool Lia.
From Stdlib Require Import Sorting.Sorted Sorting.Permutation.
From Stdlib Require String.
Import String.StringSyntax.
Delimit Scope string_scope with string.
Import ListNotations.
Open Scope Q_scope.

(** ** Exceptions and the error monad *)

Inductive exn : Type :=
| NoStatisticsData   (* ValueError("No statistics data found for entity ...") *)
| IndexError         (* [.iloc[0]] on an empty Series *)
| DuplicateLabels.   (* a Series with a repeated index label handed to DataFrame *)

Inductive result (A : Type) : Type :=
| Ok (a : A)
| Raise (e : exn).
Arguments Ok {A} a.
Arguments Raise {A} e.

Definition bind {A B : Type} (r : result A) (k : A -> result B) : result B :=
  match r with
  | Ok a => k a
  | Raise e => Raise e
  end.

Notation "x <- r ;; k" := (bind r (fun x => k))
  (at level 61, r at next level, right associativity).

(** ** The pandas operations the script uses *)

Module Pandas.

(** A float64 value: [None] is NaN. *)
Definition float : Type := option Q.

(** A value as sqlite hands it over.  [NonNumeric] stands for any value
    that is not NULL and that [pd.to_numeric(errors='coerce')] turns into
    NaN; a text that reads as a number behaves as that number in every
    operation below and is a [Num]. *)
Inductive cell : Type :=
| Null
| Num (q : Q)
| NonNumeric.

Definition notna (c : cell) : bool :=
  match c with
  | Null => false
  | _ => true
  end.

Definition to_numeric (c : cell) : float :=
  match c with
  | Num q => Some q
  | _ => None
  end.

(** A Series: index labels with their values, in row order. *)
Definition Series (A : Type) : Type := list (Z * A).

Definition index {A} (s : Series A) : list Z := map fst s.
Definition values {A} (s : Series A) : list A := map snd s.

Definition Qltb (x y : Q) : bool := negb (Qle_bool y x).

(** [x - y] on floats: NaN as soon as one side is NaN. *)
Definition fsub (x y : float) : float :=
  match x, y with
  | Some a, Some b => Some (a - b)
  | _, _ => None
  end.

(** [Series.diff()]: each value minus the one of the row before; the
    first row has no row before it and gets NaN. *)
Fixpoint diff_from (prev : float) (s : Series float) : Series float :=
  match s with
  | [] => []
  | (t, v) :: rest => (t, fsub v prev) :: diff_from v rest
  end.

Definition diff (s : Series float) : Series float :=
  match s with
  | [] => []
  | (t, v) :: rest => (t, None) :: diff_from v rest
  end.

(** [s.iloc[0]] and [s.iloc[0] = v]; both raise on an empty Series. *)
Definition iloc0 {A} (s : Series A) : result A :=
  match s with
  | [] => Raise IndexError
  | (_, v) :: _ => Ok v
  end.

Definition set_iloc0 {A} (s : Series A) (v : A) : result (Series A) :=
  match s with
  | [] => Raise IndexError
  | (t, _) :: rest => Ok ((t, v) :: rest)
  end.

(** [s[s < 0] = 0]: the comparison is false on NaN, which stays. *)
Definition clamp_value (v : float) : float :=
  match v with
  | Some q => if Qltb q 0 then Some 0 else Some q
  | None => None
  end.

Definition clamp_negative (s : Series float) : Series float :=
  map (fun e => (fst e, clamp_value (snd e))) s.

(** [Series.dropna()] *)
Fixpoint dropna (s : Series float) : Series Q :=
  match s with
  | [] => []
  | (t, Some q) :: rest => (t, q) :: dropna rest
  | (_, None) :: rest => dropna rest
  end.

(** [Series.sum()], which skips NaN; the empty sum is 0. *)
Definition Qsum (l : list Q) : Q := fold_right Qplus 0 l.

Fixpoint present (l : list float) : list Q :=
  match l with
  | [] => []
  | Some q :: rest => q :: present rest
  | None :: rest => present rest
  end.

Definition nansum (l : list float) : Q := Qsum (present l).

End Pandas.
Import Pandas.

(** ** Rows of the statistics query *)

(** One row of [SELECT s.start_ts, s.sum, s.state]. *)
Record stat_row : Type := mk_row {
  start_ts : Z;
  sum_col : cell;
  state_col : cell
}.

(** [df.sort_values('timestamp')]: ascending by timestamp.  pandas leaves
    the order of rows with equal timestamps open; the model keeps them in
    query order. *)
Fixpoint insert_row (r : stat_row) (l : list stat_row) : list stat_row :=
  match l with
  | [] => [r]
  | r' :: rest =>
      if (start_ts r <=? start_ts r')%Z then r :: l
      else r' :: insert_row r rest
  end.

Definition sort_values (l : list stat_row) : list stat_row :=
  fold_right insert_row [] l.

Definition column (f : stat_row -> cell) (df : list stat_row) : Series cell :=
  map (fun r => (start_ts r, f r)) df.

Definition numeric (s : Series cell) : Series float :=
  map (fun e => (fst e, to_numeric (snd e))) s.

(** ** get_statistics_data

    [results] is what the first query returned for the entity and the
    period, [results_old] what the query on [created_ts] returns; the second
    is only looked at when the first is empty. *)
(** The [if df['sum'].notna().any()] of the function: the differences of
    the cumulative [sum] column, the first one replaced by the first value
    itself, or else the [state] column as it is. *)
Definition hourly_consumption (df : list stat_row) : result (Series float) :=
  if existsb notna (values (column sum_col df)) then
    let sum := numeric (column sum_col df) in
    first <- iloc0 sum ;;
    set_iloc0 (diff sum) first
  else
    Ok (numeric (column state_col df)).

Definition query_results (results results_old : list stat_row)
  : list stat_row :=
  match results with
  | [] => results_old
  | _ => results
  end.

Definition get_statistics_data (results results_old : list stat_row)
  : result (Series Q) :=
  match query_results results results_old with
  | [] => Raise NoStatisticsData
  | _ =>
      let df := sort_values (query_results results results_old) in
      hc <- hourly_consumption df ;;
      Ok (dropna (clamp_negative hc))
  end.

(** Rows one hour apart, starting at the epoch, with the given cumulative
    values: a convenient way to write samples. *)
Fixpoint hourly_rows_from (t : Z) (sums : list cell) : list stat_row :=
  match sums with
  | [] => []
  | c :: rest => mk_row t c Null :: hourly_rows_from (t + 3600) rest
  end.

Definition hourly_rows (sums : list cell) : list stat_row :=
  hourly_rows_from 0 sums.

(** ** Building and joining the frames *)

Module Frame.

(** [s.loc[h]] turned total: the value at label [h], NaN when the label
    is absent (what reindexing fills in). *)
Fixpoint at_label (h : Z) (s : Series Q) : float :=
  match s with
  | [] => None
  | (t, v) :: rest => if (t =? h)%Z then Some v else at_label h rest
  end.

Fixpoint mem (h : Z) (l : list Z) : bool :=
  match l with
  | [] => false
  | t :: rest => (t =? h)%Z || mem h rest
  end.

Fixpoint is_unique (l : list Z) : bool :=
  match l with
  | [] => true
  | t :: rest => negb (mem t rest) && is_unique rest
  end.

Fixpoint index_eqb (a b : list Z) : bool :=
  match a, b with
  | [], [] => true
  | x :: a', y :: b' => (x =? y)%Z && index_eqb a' b'
  | _, _ => false
  end.

(** Insertion into an ascending index without repeats. *)
Fixpoint insert_label (h : Z) (l : list Z) : list Z :=
  match l with
  | [] => [h]
  | t :: rest =>
      if (h <? t)%Z then h :: l
      else if (h =? t)%Z then l
      else t :: insert_label h rest
  end.

(** [Index.union]: equal indexes and an empty side come back as they
    are, anything else as the ascending union. *)
Definition union_index (a b : list Z) : list Z :=
  if index_eqb a b then a
  else match a, b with
       | _, [] => a
       | [], _ => b
       | _, _ => fold_right insert_label [] (a ++ b)
       end.

(** A row of [consumption_df]. *)
Record consumption_row : Type := mk_consumption {
  c_hour : Z;
  c_import_kwh : float;
  c_export_kwh : float
}.

(** [pd.DataFrame({'import_kwh': ..., 'export_kwh': ...})]: the rows are
    the union of the two indexes, a column being NaN where its Series has
    no such label.  Series with repeated labels are outside the model:
    pandas raises or pairs the repeats up depending on the two indexes, and
    the run stops here with [DuplicateLabels]. *)
Definition DataFrame (import_kwh export_kwh : Series Q)
  : result (list consumption_row) :=
  if is_unique (index import_kwh) && is_unique (index export_kwh) then
    Ok (map (fun h => mk_consumption h (at_label h import_kwh)
                                       (at_label h export_kwh))
            (union_index (index import_kwh) (index export_kwh)))
  else Raise DuplicateLabels.

(** A row of [combined], with the three columns the script adds. *)
Record combined_row : Type := mk_combined {
  hour : Z;
  import_kwh : float;
  export_kwh : float;
  price_eur_kwh : Q;
  dynamic_price_total : Q;
  hourly_import_cost : float;
  hourly_export_credit : float
}.

Definition fscale (v : float) (k : Q) : float :=
  match v with
  | Some q => Some (q * k)
  | None => None
  end.

(** [left.join(prices, how='inner')]: the rows of [left], in order, whose
    label is a label of [prices], once per matching price.  The prices are
    numbers: [fetch_entsoe_prices] forward-fills the hourly Series. *)
Definition join_inner (left : list consumption_row) (prices : Series Q)
  : list (consumption_row * Q) :=
  flat_map (fun r =>
              map (fun p => (r, snd p))
                  (filter (fun p => (fst p =? c_hour r)%Z) prices))
           left.

End Frame.
Import Frame.

(** ** Descriptive statistics of a Series *)

Module Stats.

Definition smin (l : list Q) : float :=
  match l with
  | [] => None
  | x :: rest => Some (fold_left Qmin rest x)
  end.

Definition smax (l : list Q) : float :=
  match l with
  | [] => None
  | x :: rest => Some (fold_left Qmax rest x)
  end.

Definition count (l : list Q) : Q := inject_Z (Z.of_nat (length l)).

Definition mean (l : list Q) : float :=
  match l with
  | [] => None
  | _ => Some (Qsum l / count l)
  end.

(** [Series.var()], the sample variance (ddof = 1); [Series.std()] is its
    square root, which has no exact rational value in general, so the
    model carries the variance. *)
Definition var (l : list Q) : float :=
  match mean l with
  | Some m =>
      if Qltb 1 (count l)
      then Some (Qsum (map (fun x => (x - m) * (x - m)) l) / (count l - 1))
      else None
  | None => None
  end.

End Stats.

(** ** The user-defined variables *)

Record config : Type := mk_config {
  FIXED_IMPORT_PRICE : Q;
  FIXED_EXPORT_PRICE : Q;
  BASE_FIXED_MONTHLY : Q;
  BASE_DYNAMIC_MONTHLY : Q;
  BASE_DYNAMIC_KWH : Q;
  num_months : Z
}.

Definition script_config : config :=
  {| FIXED_IMPORT_PRICE := 0.2500;
     FIXED_EXPORT_PRICE := 0.1000;
     BASE_FIXED_MONTHLY := 15.00;
     BASE_DYNAMIC_MONTHLY := 17.01;
     BASE_DYNAMIC_KWH := 0.1492;
     num_months := 12 |}.

(** ** The tariff calculations (steps 1 to 3 of the script) *)

Section Tariffs.

Variable cfg : config.

(** Fixed tariff: from the totals of the two hourly Series. *)
Definition fixed_import_cost (total_import_kwh : Q) : Q :=
  total_import_kwh * FIXED_IMPORT_PRICE cfg.

Definition fixed_export_credit (total_export_kwh : Q) : Q :=
  total_export_kwh * FIXED_EXPORT_PRICE cfg.

Definition fixed_base_cost : Q :=
  BASE_FIXED_MONTHLY cfg * inject_Z (num_months cfg).

Definition total_fixed_cost (total_import_kwh total_export_kwh : Q) : Q :=
  fixed_import_cost total_import_kwh
  - fixed_export_credit total_export_kwh
  + fixed_base_cost.

(** Dynamic tariff: the joined frame with its three added columns. *)
Definition add_costs (r : consumption_row * Q) : combined_row :=
  let price := snd r in
  let total := price + BASE_DYNAMIC_KWH cfg in
  {| hour := c_hour (fst r);
     import_kwh := c_import_kwh (fst r);
     export_kwh := c_export_kwh (fst r);
     price_eur_kwh := price;
     dynamic_price_total := total;
     hourly_import_cost := fscale (c_import_kwh (fst r)) total;
     hourly_export_credit :=
       fscale (c_export_kwh (fst r)) (FIXED_EXPORT_PRICE cfg) |}.

Definition combined (consumption_df : list consumption_row)
           (entsoe_prices : Series Q) : list combined_row :=
  map add_costs (join_inner consumption_df entsoe_prices).

Definition dynamic_import_cost (c : list combined_row) : Q :=
  nansum (map hourly_import_cost c).

Definition dynamic_export_credit (c : list combined_row) : Q :=
  nansum (map hourly_export_credit c).

Definition dynamic_base_cost : Q :=
  BASE_DYNAMIC_MONTHLY cfg * inject_Z (num_months cfg).

Definition total_dynamic_cost (c : list combined_row) : Q :=
  dynamic_import_cost c - dynamic_export_credit c + dynamic_base_cost.

Definition weighted_avg_price (c : list combined_row) : Q :=
  if Qltb 0 (nansum (map import_kwh c))
  then nansum (map hourly_import_cost c) / nansum (map import_kwh c)
  else 0.

Definition savings (fixed dynamic : Q) : Q := fixed - dynamic.

Definition savings_pct (fixed dynamic : Q) : Q :=
  if Qltb 0 fixed then savings fixed dynamic / fixed * 100 else 0.

(** Everything the script prints, for one run. *)
Record report : Type := mk_report {
  r_total_import_kwh : Q;
  r_total_export_kwh : Q;
  r_hours_with_data : nat;
  r_price_hours : nat;
  r_avg_price : float;
  r_min_price : float;
  r_max_price : float;
  r_price_var : float;
  r_fixed_import_cost : Q;
  r_fixed_export_credit : Q;
  r_total_fixed_cost : Q;
  r_combined : list combined_row;
  r_dynamic_import_cost : Q;
  r_dynamic_export_credit : Q;
  r_total_dynamic_cost : Q;
  r_weighted_avg_price : Q;
  r_savings : Q;
  r_savings_pct : Q;
  r_hours_analyzed : nat
}.

(** The body of the script's [try] block, given the hourly Series of the
    two entities and the fetched prices. *)
Definition compare (import_hourly export_hourly entsoe_prices : Series Q)
  : result report :=
  let total_import_kwh := Qsum (values import_hourly) in
  let total_export_kwh := Qsum (values export_hourly) in
  let total_fixed := total_fixed_cost total_import_kwh total_export_kwh in
  consumption_df <- DataFrame import_hourly export_hourly ;;
  let c := combined consumption_df entsoe_prices in
  Ok {| r_total_import_kwh := total_import_kwh;
        r_total_export_kwh := total_export_kwh;
        r_hours_with_data := length import_hourly;
        r_price_hours := length entsoe_prices;
        r_avg_price := Stats.mean (values entsoe_prices);
        r_min_price := Stats.smin (values entsoe_prices);
        r_max_price := Stats.smax (values entsoe_prices);
        r_price_var := Stats.var (values entsoe_prices);
        r_fixed_import_cost := fixed_import_cost total_import_kwh;
        r_fixed_export_credit := fixed_export_credit total_export_kwh;
        r_total_fixed_cost := total_fixed;
        r_combined := c;
        r_dynamic_import_cost := dynamic_import_cost c;
        r_dynamic_export_credit := dynamic_export_credit c;
        r_total_dynamic_cost := total_dynamic_cost c;
        r_weighted_avg_price := weighted_avg_price c;
        r_savings := savings total_fixed (total_dynamic_cost c);
        r_savings_pct := savings_pct total_fixed (total_dynamic_cost c);
        r_hours_analyzed := length c |}.

(** The whole run: the two entities are read first, each from its query
    results, and a failure of either ends the run. *)
Definition run (import_results import_results_old
                export_results export_results_old : list stat_row)
           (entsoe_prices : Series Q) : result report :=
  import_hourly <- get_statistics_data import_results import_results_old ;;
  export_hourly <- get_statistics_data export_results export_results_old ;;
  compare import_hourly export_hourly entsoe_prices.

End Tariffs.

(** ** Vocabulary of the specification *)

(** A timestamp truncated to the hour. *)
Definition hour_of (t : Z) : Z := (3600 * (t / 3600))%Z.

(** The deltas the specification describes for cumulative values that are
    all present: the first value itself, then each difference to the value
    before, a negative one replaced by 0. *)
Definition clamp (q : Q) : Q := if Qltb q 0 then 0 else q.

Fixpoint successive_from (prev : Q) (l : list Q) : list Q :=
  match l with
  | [] => []
  | q :: rest => clamp (q - prev) :: successive_from q rest
  end.

Definition successive_deltas (l : list Q) : list Q :=
  match l with
  | [] => []
  | q :: rest => q :: successive_from q rest
  end.


Definition ascending (l : list Z) : Prop := Sorted Z.le l.
Definition strictly_ascending (l : list Z) : Prop := StronglySorted Z.lt l.

(** Cumulative mode: some row carries a [sum] that is not NULL, so the
    function takes the differences of the [sum] column. *)
Definition cumulative_mode (rows : list stat_row) : Prop :=
  exists r, In r rows /\ notna (sum_col r) = true.

(** [Subseq a b]: [a] is [b] with some entries left out, order kept. *)
Inductive Subseq {A : Type} : list A -> list A -> Prop :=
| Subseq_nil : Subseq [] []
| Subseq_skip x a b : Subseq a b -> Subseq a (x :: b)
| Subseq_keep x a b : Subseq a b -> Subseq (x :: a) (x :: b).

(** The value the difference of row [i] is taken against. *)
Definition before (prev : float) (rows : list stat_row) (i : nat) : float :=
  match i with
  | O => prev
  | S j => match nth_error rows j with
           | Some r' => to_numeric (sum_col r')
           | None => None
           end
  end.

(** ** Sample data *)

Definition ex_import_one : Series Q := [(0%Z, 2)].
Definition ex_export_other : Series Q := [(3600%Z, 1)].
Definition ex_prices_two : Series Q := [(0%Z, 0.10); (3600%Z, 0.20)].

Definition ex_two_hours : Series Q := [(0%Z, 1); (3600%Z, 2)].
Definition ex_price_first_hour : Series Q := [(0%Z, 0.10)].

Definition ex_hour_zero : Series Q := [(0%Z, 1)].
Definition ex_price_next_hour : Series Q := [(3600%Z, 0.10)].
Definition ex_prices_three : Series Q :=
  [(0%Z, 0.10); (3600%Z, 0.01); (7200%Z, 0.50)].

(** The end-to-end scenario of the specification: three aligned hours, a
    markup of 0.05, an export price of 0.10 and no base fee. *)
Definition scenario_config : config :=
  {| FIXED_IMPORT_PRICE := 0.25;
     FIXED_EXPORT_PRICE := 0.10;
     BASE_FIXED_MONTHLY := 0;
     BASE_DYNAMIC_MONTHLY := 0;
     BASE_DYNAMIC_KWH := 0.05;
     num_months := 12 |}.

Definition scenario_import : Series Q := [(0%Z, 2); (3600%Z, 1); (7200%Z, 0)].
Definition scenario_export : Series Q :=
  [(0%Z, 0); (3600%Z, 0.5); (7200%Z, 1)].
Definition scenario_prices : Series Q :=
  [(0%Z, 0.10); (3600%Z, 0.30); (7200%Z, 0.05)].

(** ** The statistics tables and the two queries *)

Module Database.

(** A row of [statistics]; [None] is NULL. *)
Record statistics_row : Type := mk_statistics {
  metadata_id : Z;
  s_start_ts : option Z;
  s_created_ts : option Z;
  s_sum : cell;
  s_state : cell
}.

(** A row of [statistics_meta]. *)
Record meta_row : Type := mk_meta {
  meta_id : Z;
  statistic_id : String.string
}.

Record connection : Type := mk_connection {
  statistics : list statistics_row;
  statistics_meta : list meta_row
}.

(** [ts >= ? AND ts <= ?], the bounds being [start_dt.timestamp()] and
    [end_dt.timestamp()]. *)
Definition in_period (start_ts end_ts : Q) (t : Z) : bool :=
  Qle_bool start_ts (inject_Z t) && Qle_bool (inject_Z t) end_ts.

(** [s.metadata_id = sm.id] and [sm.statistic_id = ?]. *)
Definition is_entity (entity_id : String.string) (s : statistics_row)
           (sm : meta_row) : bool :=
  (meta_id sm =? metadata_id s)%Z && String.eqb (statistic_id sm) entity_id.

(** The rows the join and the WHERE clause let through, [ts] being the
    timestamp column of the query; a NULL timestamp compares false. *)
Definition select_rows (ts : statistics_row -> option Z) (db : connection)
           (entity_id : String.string) (start_ts end_ts : Q)
  : list stat_row :=
  flat_map
    (fun s =>
       match ts s with
       | Some t =>
           if in_period start_ts end_ts t
           then map (fun _ => mk_row t (s_sum s) (s_state s))
                    (filter (is_entity entity_id s) (statistics_meta db))
           else []
       | None => []
       end)
    (statistics db).

(** With [ORDER BY ts ASC]; SQLite leaves the order of rows with equal
    timestamps open, the model keeps the order of the join. *)
Definition query (ts : statistics_row -> option Z) (db : connection)
           (entity_id : String.string) (start_ts end_ts : Q)
  : list stat_row :=
  sort_values (select_rows ts db entity_id start_ts end_ts).

End Database.
Import Database.

(** [get_statistics_data(db_conn, entity_id, start_dt, end_dt)]: the query
    on [start_ts], the one on [created_ts] for older versions, and the
    processing of the rows. *)
Definition get_statistics_data_from (db_conn : connection)
           (entity_id : String.string) (start_ts end_ts : Q)
  : result (Series Q) :=
  get_statistics_data
    (query s_start_ts db_conn entity_id start_ts end_ts)
    (query s_created_ts db_conn entity_id start_ts end_ts).

(** ** fetch_entsoe_prices *)

Module Entsoe.

(** What [client.query_day_ahead_prices] does: it returns a Series of
    prices in EUR/MWh or raises. *)
Inductive response : Type :=
| Returned (prices : Series float)
| Raised.

(** What the function does: it returns the hourly prices or raises the
    [ValueError] it wraps every failure in. *)
Inductive fetched : Type :=
| Fetched (prices : Series float)
| FetchError.

(** [prices / 1000] *)
Definition per_kwh (s : Series float) : Series float :=
  map (fun e => (fst e, match snd e with
                        | Some q => Some (q / 1000)
                        | None => None
                        end)) s.

Definition first_label (t : Z) (rest : list Z) : Z := fold_left Z.min rest t.
Definition last_label (t : Z) (rest : list Z) : Z := fold_left Z.max rest t.

(** The hourly labels from [first] to [last], both on the hour. *)
Definition hours_between (first last : Z) : list Z :=
  map (fun k => (first + 3600 * Z.of_nat k)%Z)
      (seq 0 (S (Z.to_nat ((last - first) / 3600)))).

(** The numbers among the samples of the hour that starts at [h]. *)
Definition bin (h : Z) (s : Series float) : list Q :=
  present (values (filter (fun e => (hour_of (fst e) =? h)%Z) s)).

(** [resample('1H').mean()]: one label per hour from the hour of the
    earliest sample to the hour of the latest, with the mean of the numbers
    sampled in that hour, NaN when there is none. *)
Definition resample_mean (s : Series float) : Series float :=
  match index s with
  | [] => []
  | t :: rest =>
      map (fun h => (h, Stats.mean (bin h s)))
          (hours_between (hour_of (first_label t rest))
                         (hour_of (last_label t rest)))
  end.

(** [fillna(method='ffill')]: a NaN takes the last number before it. *)
Fixpoint ffill_from (prev : float) (s : Series float) : Series float :=
  match s with
  | [] => []
  | (t, Some v) :: rest => (t, Some v) :: ffill_from (Some v) rest
  | (t, None) :: rest => (t, prev) :: ffill_from prev rest
  end.

Definition ffill (s : Series float) : Series float := ffill_from None s.

(** The conversion of the index to UTC does not move any sample: the
    labels are instants. *)
Definition fetch_entsoe_prices (r : response) : fetched :=
  match r with
  | Raised => FetchError
  | Returned [] => FetchError
  | Returned prices => Fetched (ffill (resample_mean (per_kwh prices)))
  end.

End Entsoe.
Import Entsoe.

(** ** The comparison and the top consumption hours *)



(** The rows that carry an import, with it, and the rows that do not. *)
Definition with_import (c : list combined_row) : list (Q * combined_row) :=
  flat_map (fun r => match import_kwh r with
                     | Some q => [(q, r)]
                     | None => []
                     end) c.

Definition without_import (c : list combined_row) : list combined_row :=
  filter (fun r => match import_kwh r with
                   | Some _ => false
                   | None => true
                   end) c.

Fixpoint insert_larger (x : Q * combined_row) (l : list (Q * combined_row))
  : list (Q * combined_row) :=
  match l with
  | [] => [x]
  | y :: rest =>
      if Qle_bool (fst y) (fst x) then x :: l
      else y :: insert_larger x rest
  end.

(** [combined.nlargest(n, 'import_kwh')]: the rows by descending import,
    equal imports in their order of appearance ([keep='first']; with fewer
    than [n] rows pandas sorts the whole column and leaves that order
    open), the rows without an import after all others, cut after [n]
    rows. *)
Definition nlargest (n : nat) (c : list combined_row) : list combined_row :=
  firstn n (map snd (fold_right insert_larger [] (with_import c))
            ++ without_import c).

Definition top_hours (c : list combined_row) : list combined_row :=
  nlargest 5 c.

(** ** Prices as numbers *)

(** The fetched Series as a Series of numbers, when it holds no NaN. *)
Definition numbers (s : Series float) : option (Series Q) :=
  if forallb (fun v => match v with Some _ => true | None => false end)
             (values s)
  then Some (dropna s)
  else None.

(** ** The timestamp columns of the statistics table *)

(** Which of the two timestamp columns the [statistics] table has. *)
Record schema : Type := mk_schema {
  has_start_ts : bool;
  has_created_ts : bool
}.

(** What a call of the function ends in: its result, or the
    [sqlite3.OperationalError] ("no such column") that [cursor.execute]
    raises for a query naming a column the table lacks, which the function
    does not catch. *)
Inductive read : Type :=
| Read (r : result (Series Q))
| OperationalError.

(** [get_statistics_data] on a table with the given columns: the query on
    [created_ts] is only executed after the query on [start_ts] ran and
    returned no row. *)
Definition get_statistics_data_on (columns : schema) (db_conn : connection)
           (entity_id : String.string) (start_ts end_ts : Q) : read :=
  if has_start_ts columns then
    match query s_start_ts db_conn entity_id start_ts end_ts with
    | [] =>
        if has_created_ts columns
        then Read (get_statistics_data
                     [] (query s_created_ts db_conn entity_id
                               start_ts end_ts))
        else OperationalError
    | results => Read (get_statistics_data results [])
    end
  else OperationalError.

(** Whether the query with timestamp column [ts] lets the row through. *)
Definition selected (ts : statistics_row -> option Z) (meta : list meta_row)
           (entity_id : String.string) (start_ts end_ts : Q)
           (s : statistics_row) : bool :=
  match ts s with
  | Some t => in_period start_ts end_ts t && existsb (is_entity entity_id s) meta
  | None => false
  end.

Definition ex_db : connection :=
  {| statistics :=
       [mk_statistics 1 (Some 0%Z) (Some 10%Z) (Num 90) Null;
        mk_statistics 1 (Some 3600%Z) (Some 3610%Z) (Num 100) Null;
        mk_statistics 2 (Some 3600%Z) (Some 3610%Z) (Num 7) Null;
        mk_statistics 1 (Some 7200%Z) (Some 7210%Z) (Num 110) Null];
     statistics_meta :=
       [mk_meta 1 "sensor.grid_import"%string;
        mk_meta 2 "sensor.grid_export"%string] |}.

Definition ex_response : response :=
  Returned [(900%Z, Some 100); (9600%Z, Some 40); (2700%Z, Some 50)].

(** [ranked r1 r2]: [r1] may stand before [r2] in a list of the largest
    imports: its import is at least that of [r2], or [r2] has none. *)
Definition ranked (r1 r2 : combined_row) : Prop :=
  match import_kwh r1, import_kwh r2 with
  | Some q1, Some q2 => q2 <= q1
  | None, Some _ => False
  | _, _ => True
  end.

(** * Properties of the normalizer *)

(** ** Sorting *)

Lemma insert_row_In r x l : In x (insert_row r l) <-> x = r \/ In x l.
Proof.
  induction l as [|y l IH]; simpl.
  - intuition.
  - destruct (start_ts r <=? start_ts y)%Z; simpl; rewrite ?IH; intuition.
Qed.

Lemma sort_values_In x l : In x (sort_values l) <-> In x l.
Proof.
  induction l as [|y l IH]; simpl; [tauto|].
  rewrite insert_row_In, IH. intuition.
Qed.

Lemma insert_row_ascending r l :
  ascending (map start_ts l) -> ascending (map start_ts (insert_row r l)).
Proof.
  unfold ascending. induction l as [|y l IH]; simpl; intros Hs.
  - repeat constructor.
  - destruct (start_ts r <=? start_ts y)%Z eqn:E.
    + simpl. constructor; [exact Hs|]. constructor. lia.
    + simpl. inversion Hs as [|? ? Hs' Hr]; subst.
      constructor; [auto|].
      destruct l as [|z l]; simpl.
      * constructor. lia.
      * destruct (start_ts r <=? start_ts z)%Z; simpl; constructor.
        -- lia.
        -- inversion Hr; subst. assumption.
Qed.

Lemma sort_values_ascending l : ascending (map start_ts (sort_values l)).
Proof.
  induction l as [|y l IH]; simpl.
  - constructor.
  - apply insert_row_ascending, IH.
Qed.

Lemma sort_values_sorted_id l :
  ascending (map start_ts l) -> sort_values l = l.
Proof.
  unfold ascending. induction l as [|y l IH]; simpl; intros Hs; [reflexivity|].
  inversion Hs as [|? ? Hs' Hr]; subst.
  rewrite (IH Hs').
  destruct l as [|z l]; simpl; [reflexivity|].
  inversion Hr; subst.
  destruct (start_ts y <=? start_ts z)%Z eqn:E; [reflexivity|lia].
Qed.

Lemma strictly_ascending_ascending l : strictly_ascending l -> ascending l.
Proof.
  unfold strictly_ascending, ascending.
  induction 1 as [|x l Hl IH Hx]; constructor; auto.
  destruct l as [|y l]; constructor.
  inversion Hx; subst. lia.
Qed.

Lemma strictly_ascending_NoDup l : strictly_ascending l -> NoDup l.
Proof.
  induction 1 as [|x l Hl IH Hx]; constructor; auto.
  intros Hin. rewrite Forall_forall in Hx. specialize (Hx _ Hin). lia.
Qed.

Lemma sort_values_length l : length (sort_values l) = length l.
Proof.
  induction l as [|y l IH]; simpl; [reflexivity|].
  rewrite <- IH. generalize (sort_values l). intros s.
  induction s as [|z s IHs]; simpl; [reflexivity|].
  destruct (start_ts y <=? start_ts z)%Z; simpl; [reflexivity|].
  now rewrite IHs.
Qed.

(** ** The shape of the result *)

Lemma hourly_consumption_cumulative r rest :
  existsb notna (values (column sum_col (r :: rest))) = true ->
  hourly_consumption (r :: rest)
  = Ok ((start_ts r, to_numeric (sum_col r))
          :: diff_from (to_numeric (sum_col r))
                       (numeric (column sum_col rest))).
Proof.
  intros H. unfold hourly_consumption. rewrite H. reflexivity.
Qed.

Lemma hourly_consumption_state df :
  existsb notna (values (column sum_col df)) = false ->
  hourly_consumption df = Ok (numeric (column state_col df)).
Proof.
  intros H. unfold hourly_consumption. now rewrite H.
Qed.

Lemma index_diff_from prev s : index (diff_from prev s) = index s.
Proof.
  revert prev. induction s as [|[t v] s IH]; intros prev; simpl.
  - reflexivity.
  - f_equal. apply IH.
Qed.

Lemma index_numeric_column f df :
  index (numeric (column f df)) = map start_ts df.
Proof.
  unfold index, numeric, column. rewrite !map_map. reflexivity.
Qed.

Lemma hourly_consumption_index df :
  df <> [] ->
  exists hc, hourly_consumption df = Ok hc /\ index hc = map start_ts df.
Proof.
  intros Hne. destruct df as [|r rest]; [congruence|].
  destruct (existsb notna (values (column sum_col (r :: rest)))) eqn:E.
  - rewrite (hourly_consumption_cumulative _ _ E).
    eexists; split; [reflexivity|].
    simpl. f_equal.
    fold (index (diff_from (to_numeric (sum_col r))
                           (numeric (column sum_col rest)))).
    rewrite index_diff_from. apply index_numeric_column.
  - rewrite (hourly_consumption_state _ E).
    eexists; split; [reflexivity|]. apply index_numeric_column.
Qed.

Lemma sort_values_nonempty l : l <> [] -> sort_values l <> [].
Proof.
  intros H E. apply (f_equal (@length _)) in E.
  rewrite sort_values_length in E. destruct l; simpl in E; congruence.
Qed.

Lemma get_statistics_data_rows results results_old :
  query_results results results_old <> [] ->
  exists hc,
    hourly_consumption (sort_values (query_results results results_old))
    = Ok hc /\
    index hc
    = map start_ts (sort_values (query_results results results_old)) /\
    get_statistics_data results results_old
    = Ok (dropna (clamp_negative hc)).
Proof.
  intros Hne. unfold get_statistics_data.
  destruct (hourly_consumption_index _ (sort_values_nonempty _ Hne))
    as (hc & Hhc & Hidx).
  exists hc. split; [exact Hhc|]. split; [exact Hidx|].
  destruct (query_results results results_old); [congruence|].
  rewrite Hhc. reflexivity.
Qed.

Lemma get_statistics_data_no_rows results results_old :
  query_results results results_old = [] ->
  get_statistics_data results results_old = Raise NoStatisticsData.
Proof.
  intros H. unfold get_statistics_data. now rewrite H.
Qed.

Lemma query_results_nil results results_old :
  query_results results results_old = [] <->
  results = [] /\ results_old = [].
Proof.
  unfold query_results. destruct results; split.
  - intros ->. auto.
  - intros [_ ->]. reflexivity.
  - discriminate.
  - intros [H _]. discriminate.
Qed.

(** ** Dropping NaN and clamping *)

Lemma dropna_In t q s : In (t, q) (dropna s) <-> In (t, Some q) s.
Proof.
  induction s as [|[t' [q'|]] s IH]; simpl.
  - tauto.
  - rewrite IH. split; (intros [H|H]; [left; inversion H; reflexivity|now right]).
  - rewrite IH. split; [auto|]. intros [H|H]; [discriminate|auto].
Qed.

Lemma clamp_negative_In t v s :
  In (t, v) (clamp_negative s) <->
  exists v0, In (t, v0) s /\ v = clamp_value v0.
Proof.
  unfold clamp_negative. rewrite in_map_iff. split.
  - intros ([t' v0] & E & Hin). simpl in E. inversion E; subst.
    exists v0. auto.
  - intros (v0 & Hin & ->). exists (t, v0). auto.
Qed.

Lemma Qltb_false_le x y : Qltb x y = false -> y <= x.
Proof.
  unfold Qltb. intros H. apply negb_false_iff in H.
  now apply Qle_bool_iff.
Qed.

Lemma Qltb_ge x y : y <= x -> Qltb x y = false.
Proof.
  intros H. unfold Qltb. apply negb_false_iff. now apply Qle_bool_iff.
Qed.

Lemma clamp_value_nonneg v q : clamp_value v = Some q -> 0 <= q.
Proof.
  destruct v as [x|]; simpl; [|discriminate].
  destruct (Qltb x 0) eqn:E; intros H; inversion H; subst.
  - apply Qle_refl.
  - now apply Qltb_false_le.
Qed.

Lemma dropna_clamp_nonneg s :
  Forall (fun e => 0 <= snd e) (dropna (clamp_negative s)).
Proof.
  apply Forall_forall. intros [t q] Hin. simpl.
  apply dropna_In, clamp_negative_In in Hin.
  destruct Hin as (v0 & _ & Hq). symmetry in Hq.
  eapply clamp_value_nonneg; eauto.
Qed.

Lemma dropna_index_Subseq s : Subseq (index (dropna s)) (index s).
Proof.
  induction s as [|[t [q|]] s IH]; simpl.
  - constructor.
  - now constructor.
  - now constructor.
Qed.

Lemma index_clamp_negative s : index (clamp_negative s) = index s.
Proof.
  unfold index, clamp_negative. rewrite map_map. reflexivity.
Qed.

(** ** Subsequences *)

Lemma Subseq_In {A} (a b : list A) x : Subseq a b -> In x a -> In x b.
Proof.
  induction 1; simpl; intuition.
Qed.

Lemma Subseq_map {A B} (f : A -> B) a b :
  Subseq a b -> Subseq (map f a) (map f b).
Proof.
  induction 1; simpl; constructor; assumption.
Qed.

Lemma Subseq_NoDup {A} (a b : list A) : Subseq a b -> NoDup b -> NoDup a.
Proof.
  induction 1 as [|x a b H IH|x a b H IH]; intros Hb.
  - constructor.
  - inversion Hb; subst. auto.
  - inversion Hb as [|? ? Hx Hb']; subst. constructor; auto.
    intros Hin. apply Hx. eapply Subseq_In; eauto.
Qed.

Lemma Subseq_ascending a b : Subseq a b -> ascending b -> ascending a.
Proof.
  unfold ascending. intros Hs Hb.
  apply StronglySorted_Sorted.
  apply Sorted_StronglySorted in Hb; [|intros x y z; apply Z.le_trans].
  induction Hs as [|x a b H IH|x a b H IH].
  - constructor.
  - inversion Hb; subst. auto.
  - inversion Hb as [|? ? Hb' Hx]; subst. constructor; auto.
    rewrite Forall_forall in *. intros y Hy. apply Hx.
    eapply Subseq_In; eauto.
Qed.

Lemma insert_row_Permutation r l : Permutation (insert_row r l) (r :: l).
Proof.
  induction l as [|y l IH]; simpl.
  - apply Permutation_refl.
  - destruct (start_ts r <=? start_ts y)%Z.
    + apply Permutation_refl.
    + eapply Permutation_trans; [apply perm_skip, IH|apply perm_swap].
Qed.

Lemma sort_values_Permutation l : Permutation (sort_values l) l.
Proof.
  induction l as [|y l IH]; simpl.
  - constructor.
  - eapply Permutation_trans; [apply insert_row_Permutation|].
    now apply perm_skip.
Qed.

(** ** Cumulative values that are all present *)

Lemma Qltb_clamp q : clamp_value (Some q) = Some (clamp q).
Proof.
  unfold clamp_value, clamp. destruct (Qltb q 0); reflexivity.
Qed.

Lemma present_tail_deltas rest : forall qs p,
  map sum_col rest = map Num qs ->
  dropna (clamp_negative
            (diff_from (Some p) (numeric (column sum_col rest))))
  = combine (map start_ts rest) (successive_from p qs).
Proof.
  induction rest as [|r rest IH]; intros qs p Hq.
  - reflexivity.
  - destruct qs as [|q qs]; [discriminate|].
    simpl in Hq. inversion Hq as [[Hr Hrest]].
    simpl. rewrite Hr. simpl.
    fold (clamp_negative
            (diff_from (Some q) (numeric (column sum_col rest)))).
    unfold clamp. destruct (Qltb (q - p) 0); simpl; f_equal; now apply IH.
Qed.

Lemma present_deltas results results_old qs :
  strictly_ascending (map start_ts results) ->
  map sum_col results = map Num qs ->
  qs <> [] ->
  0 <= hd 0 qs ->
  get_statistics_data results results_old
  = Ok (combine (map start_ts results) (successive_deltas qs)).
Proof.
  intros Hs Hq Hne H0.
  destruct qs as [|q qs]; [congruence|].
  destruct results as [|r rest]; [discriminate|].
  simpl in Hq. inversion Hq as [[Hr Hrest]]. simpl in H0.
  unfold get_statistics_data. simpl query_results.
  rewrite (sort_values_sorted_id (r :: rest))
    by now apply strictly_ascending_ascending.
  rewrite hourly_consumption_cumulative
    by (simpl; rewrite Hr; reflexivity).
  rewrite Hr. simpl bind. simpl to_numeric.
  rewrite (Qltb_ge _ _ H0).
  rewrite (present_tail_deltas rest qs q Hrest).
  reflexivity.
Qed.

Lemma get_statistics_data_nonneg results results_old out :
  get_statistics_data results results_old = Ok out ->
  Forall (fun e => 0 <= snd e) out.
Proof.
  intros H.
  destruct (query_results results results_old) eqn:E.
  - rewrite get_statistics_data_no_rows in H by assumption. discriminate.
  - destruct (get_statistics_data_rows results results_old)
      as (hc & _ & _ & Hout); [congruence|].
    rewrite Hout in H. inversion H; subst.
    apply dropna_clamp_nonneg.
Qed.

(** ** Row by row: what each difference is taken against *)

Lemma cumulative_mode_existsb rows :
  cumulative_mode rows <->
  existsb notna (values (column sum_col rows)) = true.
Proof.
  unfold cumulative_mode, values, column. rewrite map_map. simpl.
  rewrite existsb_exists. split.
  - intros (r & Hin & Hr). exists (sum_col r). split; [|exact Hr].
    apply in_map_iff. eauto.
  - intros (c & Hin & Hc). apply in_map_iff in Hin.
    destruct Hin as (r & <- & Hin). eauto.
Qed.

Lemma cumulative_mode_sort_values rows :
  cumulative_mode rows -> cumulative_mode (sort_values rows).
Proof.
  intros (r & Hin & Hr). exists r. split; [|exact Hr].
  now apply sort_values_In.
Qed.

Lemma diff_from_nth rest : forall prev i r,
  nth_error rest i = Some r ->
  nth_error (diff_from prev (numeric (column sum_col rest))) i
  = Some (start_ts r, fsub (to_numeric (sum_col r)) (before prev rest i)).
Proof.
  induction rest as [|x rest IH]; intros prev i r Hi.
  - destruct i; discriminate.
  - destruct i as [|i]; simpl in Hi.
    + inversion Hi; subst. reflexivity.
    + simpl. rewrite (IH _ _ _ Hi). destruct i; reflexivity.
Qed.

Lemma cumulative_nth rows hc :
  cumulative_mode rows ->
  hourly_consumption rows = Ok hc ->
  forall i r, nth_error rows i = Some r ->
    nth_error hc i
    = Some (start_ts r,
            match i with
            | O => to_numeric (sum_col r)
            | S _ => fsub (to_numeric (sum_col r)) (before None rows i)
            end).
Proof.
  intros Hc Hhc i r Hi.
  destruct rows as [|r0 rest]; [destruct i; discriminate|].
  apply cumulative_mode_existsb in Hc.
  rewrite (hourly_consumption_cumulative _ _ Hc) in Hhc.
  inversion Hhc; subst hc. clear Hhc.
  destruct i as [|i]; simpl in Hi.
  - inversion Hi; subst. reflexivity.
  - simpl nth_error. rewrite (diff_from_nth _ _ _ _ Hi).
    destruct i; reflexivity.
Qed.

Lemma index_functional {A} (s : Series A) t v v' :
  NoDup (index s) -> In (t, v) s -> In (t, v') s -> v = v'.
Proof.
  induction s as [|[t0 v0] s IH]; simpl; intros Hnd H1 H2; [tauto|].
  inversion Hnd as [|? ? Hx Hnd']; subst.
  assert (Hfst : forall w, In (t0, w) s -> False).
  { intros w Hw. apply Hx. unfold index. apply in_map_iff.
    exists (t0, w). auto. }
  destruct H1 as [H1|H1], H2 as [H2|H2].
  - congruence.
  - inversion H1; subst. destruct (Hfst _ H2).
  - inversion H2; subst. destruct (Hfst _ H1).
  - eauto.
Qed.

Lemma fsub_nan_r x : fsub x None = None.
Proof. destruct x; reflexivity. Qed.

Lemma out_In_hc hc t q :
  In (t, q) (dropna (clamp_negative hc)) ->
  exists v0, In (t, v0) hc /\ clamp_value v0 = Some q.
Proof.
  intros H. apply dropna_In, clamp_negative_In in H.
  destruct H as (v0 & Hin & E). eauto.
Qed.

Lemma index_In {A} (s : Series A) t :
  In t (index s) -> exists v, In (t, v) s.
Proof.
  unfold index. rewrite in_map_iff. intros ([t' v] & E & Hin).
  simpl in E. subst. eauto.
Qed.

(** A row whose difference is NaN leaves no entry. *)
Lemma nan_row_dropped hc i t :
  NoDup (index hc) ->
  nth_error hc i = Some (t, None) ->
  ~ In t (index (dropna (clamp_negative hc))).
Proof.
  intros Hnd Hi Hin.
  apply index_In in Hin. destruct Hin as (q & Hq).
  apply out_In_hc in Hq. destruct Hq as (v0 & Hv0 & Hc).
  apply nth_error_In in Hi.
  rewrite (index_functional hc t v0 None Hnd Hv0 Hi) in Hc.
  discriminate.
Qed.

(** * Properties of the frames *)

Lemma mem_In h l : mem h l = true <-> In h l.
Proof.
  induction l as [|t l IH]; simpl.
  - split; [discriminate|tauto].
  - rewrite orb_true_iff, IH, Z.eqb_eq. tauto.
Qed.

Lemma is_unique_NoDup l : is_unique l = true <-> NoDup l.
Proof.
  induction l as [|t l IH]; simpl.
  - split; [constructor|reflexivity].
  - rewrite andb_true_iff, negb_true_iff, IH. split.
    + intros [Hm Hl]. constructor; [|exact Hl].
      intros Hin. apply mem_In in Hin. congruence.
    + intros Hnd. inversion Hnd as [|? ? Hx Hl]; subst. split; [|exact Hl].
      destruct (mem t l) eqn:E; [|reflexivity].
      apply mem_In in E. contradiction.
Qed.

Lemma index_eqb_eq a : forall b, index_eqb a b = true <-> a = b.
Proof.
  induction a as [|x a IH]; intros [|y b]; simpl;
    try (split; [discriminate|congruence]); [tauto|].
  rewrite andb_true_iff, Z.eqb_eq, IH. split.
  - intros [-> ->]. reflexivity.
  - intros E. inversion E. auto.
Qed.

Lemma insert_label_In x h l : In x (insert_label h l) <-> x = h \/ In x l.
Proof.
  induction l as [|t l IH]; simpl.
  - intuition.
  - destruct (h <? t)%Z; [simpl; intuition|].
    destruct (h =? t)%Z eqn:E.
    + apply Z.eqb_eq in E. subst. simpl. intuition.
    + simpl. rewrite IH. intuition.
Qed.

Lemma sorted_union_In x l : In x (fold_right insert_label [] l) <-> In x l.
Proof.
  induction l as [|t l IH]; simpl; [tauto|].
  rewrite insert_label_In, IH. intuition.
Qed.

Lemma union_index_In h a b : In h (union_index a b) <-> In h a \/ In h b.
Proof.
  unfold union_index. destruct (index_eqb a b) eqn:E.
  - apply index_eqb_eq in E. subst. tauto.
  - destruct a as [|x a], b as [|y b]; simpl; try tauto.
    rewrite insert_label_In, sorted_union_In, in_app_iff. simpl.
    intuition auto.
Qed.

Lemma at_label_None h s : at_label h s = None <-> ~ In h (index s).
Proof.
  induction s as [|[t v] s IH]; simpl.
  - tauto.
  - destruct (t =? h)%Z eqn:E.
    + apply Z.eqb_eq in E. split; [discriminate|]. intros H. tauto.
    + apply Z.eqb_neq in E. rewrite IH. tauto.
Qed.

Lemma DataFrame_Ok import_kwh export_kwh df :
  DataFrame import_kwh export_kwh = Ok df <->
  NoDup (index import_kwh) /\ NoDup (index export_kwh) /\
  df = map (fun h => mk_consumption h (at_label h import_kwh)
                                      (at_label h export_kwh))
           (union_index (index import_kwh) (index export_kwh)).
Proof.
  unfold DataFrame.
  destruct (is_unique (index import_kwh)) eqn:Ei;
    destruct (is_unique (index export_kwh)) eqn:Ee; simpl.
  - apply is_unique_NoDup in Ei, Ee. split.
    + intros H. inversion H. auto.
    + intros (_ & _ & ->). reflexivity.
  - split; [discriminate|]. intros (_ & H & _).
    apply is_unique_NoDup in H. congruence.
  - split; [discriminate|]. intros (H & _).
    apply is_unique_NoDup in H. congruence.
  - split; [discriminate|]. intros (H & _).
    apply is_unique_NoDup in H. congruence.
Qed.

Lemma join_inner_In left prices r p :
  In (r, p) (join_inner left prices) <->
  In r left /\ In (c_hour r, p) prices.
Proof.
  unfold join_inner. rewrite in_flat_map. split.
  - intros (r0 & Hr0 & Hin). apply in_map_iff in Hin.
    destruct Hin as ([t p0] & E & Hf). simpl in E. inversion E; subst.
    apply filter_In in Hf. destruct Hf as [Hp Ht]. simpl in Ht.
    apply Z.eqb_eq in Ht. subst. auto.
  - intros [Hr Hp]. exists r. split; [exact Hr|].
    apply in_map_iff. exists (c_hour r, p). split; [reflexivity|].
    apply filter_In. split; [exact Hp|]. simpl. apply Z.eqb_refl.
Qed.

Lemma combined_In cfg df prices row :
  In row (combined cfg df prices) <->
  exists r p, In r df /\ In (c_hour r, p) prices /\
              row = add_costs cfg (r, p).
Proof.
  unfold combined. rewrite in_map_iff. split.
  - intros ([r p] & E & Hin). apply join_inner_In in Hin.
    exists r, p. intuition.
  - intros (r & p & Hr & Hp & ->). exists (r, p). split; [reflexivity|].
    apply join_inner_In. auto.
Qed.

Lemma combined_hours cfg imp exp prices df h :
  DataFrame imp exp = Ok df ->
  In h (map hour (combined cfg df prices)) <->
  (In h (index imp) \/ In h (index exp)) /\
  In h (index prices).
Proof.
  intros Hdf. apply DataFrame_Ok in Hdf. destruct Hdf as (_ & _ & ->).
  rewrite in_map_iff. split.
  - intros (row & <- & Hin). apply combined_In in Hin.
    destruct Hin as (r & p & Hr & Hp & ->). simpl.
    apply in_map_iff in Hr. destruct Hr as (h0 & <- & Hh0). simpl in *.
    apply union_index_In in Hh0. split; [exact Hh0|].
    unfold index. apply in_map_iff. exists (h0, p). auto.
  - intros [Hu Hp]. apply union_index_In in Hu.
    apply index_In in Hp. destruct Hp as (p & Hp).
    exists (add_costs cfg
              (mk_consumption h (at_label h imp)
                                (at_label h exp), p)).
    split; [reflexivity|]. apply combined_In.
    eexists _, p. split; [|split; [|reflexivity]]; simpl; [|exact Hp].
    apply in_map_iff. exists h. auto.
Qed.

Lemma combined_rows cfg imp exp prices df row :
  DataFrame imp exp = Ok df ->
  In row (combined cfg df prices) ->
  import_kwh row = at_label (hour row) imp /\
  export_kwh row = at_label (hour row) exp /\
  In (hour row, price_eur_kwh row) prices.
Proof.
  intros Hdf Hin. apply DataFrame_Ok in Hdf. destruct Hdf as (_ & _ & ->).
  apply combined_In in Hin. destruct Hin as (r & p & Hr & Hp & ->).
  apply in_map_iff in Hr. destruct Hr as (h0 & <- & Hh0). simpl in *.
  auto.
Qed.

Lemma present_map_Some l : present (map Some l) = l.
Proof.
  induction l as [|q l IH]; simpl; [reflexivity|]. now rewrite IH.
Qed.

Lemma at_label_own_index (s : Series Q) :
  NoDup (index s) ->
  map (fun h => at_label h s) (index s) = map Some (values s).
Proof.
  induction s as [|[t v] s IH]; simpl; intros Hnd; [reflexivity|].
  inversion Hnd as [|? ? Hx Hnd']; subst.
  rewrite Z.eqb_refl. f_equal.
  rewrite <- (IH Hnd'). apply map_ext_in.
  intros h Hh. destruct (t =? h)%Z eqn:E; [|reflexivity].
  apply Z.eqb_eq in E. subst. contradiction.
Qed.

Lemma filter_label_absent (s : Series Q) h :
  ~ In h (index s) -> filter (fun e => (fst e =? h)%Z) s = [].
Proof.
  induction s as [|[t v] s IH]; simpl; intros Hn; [reflexivity|].
  destruct (t =? h)%Z eqn:E.
  - apply Z.eqb_eq in E. tauto.
  - apply IH. tauto.
Qed.

Lemma filter_label_single (s : Series Q) h :
  NoDup (index s) -> In h (index s) ->
  exists p, filter (fun e => (fst e =? h)%Z) s = [(h, p)].
Proof.
  induction s as [|[t v] s IH]; simpl; intros Hnd Hin; [tauto|].
  inversion Hnd as [|? ? Hx Hnd']; subst.
  destruct (t =? h)%Z eqn:E.
  - apply Z.eqb_eq in E. subst. exists v.
    now rewrite filter_label_absent.
  - apply Z.eqb_neq in E. destruct Hin as [Hin|Hin]; [contradiction|].
    now apply IH.
Qed.

Lemma join_inner_all_priced left prices :
  NoDup (index prices) ->
  (forall r, In r left -> In (c_hour r) (index prices)) ->
  map fst (join_inner left prices) = left.
Proof.
  intros Hnd. unfold join_inner.
  induction left as [|r left IH]; simpl; intros Hall; [reflexivity|].
  destruct (filter_label_single prices (c_hour r) Hnd) as (p & Hp);
    [apply Hall; now left|].
  rewrite Hp. simpl. f_equal. apply IH. intros r' Hr'. apply Hall.
  now right.
Qed.

Lemma join_inner_none_priced left prices :
  (forall r, In r left -> ~ In (c_hour r) (index prices)) ->
  join_inner left prices = [].
Proof.
  unfold join_inner.
  induction left as [|r left IH]; simpl; intros Hall; [reflexivity|].
  rewrite filter_label_absent by (apply Hall; now left).
  simpl. apply IH. intros r' Hr'. apply Hall. now right.
Qed.

Lemma combined_columns cfg df prices :
  map import_kwh (combined cfg df prices)
  = map c_import_kwh (map fst (join_inner df prices)) /\
  map export_kwh (combined cfg df prices)
  = map c_export_kwh (map fst (join_inner df prices)) /\
  map hour (combined cfg df prices)
  = map c_hour (map fst (join_inner df prices)).
Proof.
  unfold combined. rewrite !map_map. repeat split.
Qed.

(** * Sums *)

Lemma Qsum_scale p l : Qsum (map (fun v => v * p) l) == Qsum l * p.
Proof.
  induction l as [|q l IH]; simpl.
  - ring.
  - rewrite IH. ring.
Qed.

Lemma present_fscale p l :
  present (map (fun v => fscale v p) l) = map (fun v => v * p) (present l).
Proof.
  induction l as [|[q|] l IH]; simpl; [reflexivity| |exact IH].
  now rewrite IH.
Qed.

Lemma nansum_scale p l :
  nansum (map (fun v => fscale v p) l) == nansum l * p.
Proof.
  unfold nansum. rewrite present_fscale. apply Qsum_scale.
Qed.

(** * Rows without a usable value *)

Lemma all_nan_diff_from rows : forall prev,
  (forall r, In r rows -> to_numeric (sum_col r) = None) ->
  dropna (clamp_negative (diff_from prev (numeric (column sum_col rows))))
  = [].
Proof.
  induction rows as [|r rows IH]; intros prev Hall; [reflexivity|].
  simpl. rewrite (Hall r) by now left. simpl.
  apply IH. intros r' Hr'. apply Hall. now right.
Qed.

Lemma all_nan_state rows :
  (forall r, In r rows -> to_numeric (state_col r) = None) ->
  dropna (clamp_negative (numeric (column state_col rows))) = [].
Proof.
  induction rows as [|r rows IH]; intros Hall; [reflexivity|].
  simpl. rewrite (Hall r) by now left. simpl.
  apply IH. intros r' Hr'. apply Hall. now right.
Qed.

Lemma get_statistics_data_unusable results results_old :
  query_results results results_old <> [] ->
  (forall r, In r (query_results results results_old) ->
             to_numeric (sum_col r) = None) ->
  (cumulative_mode (query_results results results_old) \/
   forall r, In r (query_results results results_old) ->
             to_numeric (state_col r) = None) ->
  get_statistics_data results results_old = Ok [].
Proof.
  intros Hne Hsum Hmode.
  destruct (get_statistics_data_rows _ _ Hne) as (hc & Hhc & _ & ->).
  f_equal.
  set (df := sort_values (query_results results results_old)) in *.
  assert (Hsum' : forall r, In r df -> to_numeric (sum_col r) = None).
  { intros r Hr. apply Hsum. now apply sort_values_In. }
  destruct (existsb notna (values (column sum_col df))) eqn:E.
  - destruct df as [|r rest] eqn:Edf.
    + simpl in E. discriminate.
    + rewrite (hourly_consumption_cumulative _ _ E) in Hhc.
      inversion Hhc; subst hc.
      simpl. rewrite (Hsum' r) by now left. simpl.
      apply all_nan_diff_from. intros r' Hr'. apply Hsum'. now right.
  - rewrite (hourly_consumption_state _ E) in Hhc. inversion Hhc; subst hc.
    destruct Hmode as [Hc|Hstate].
    + apply cumulative_mode_sort_values, cumulative_mode_existsb in Hc.
      fold df in Hc. congruence.
    + apply all_nan_state. intros r Hr. apply Hstate.
      now apply sort_values_In.
Qed.

Lemma compare_Ok cfg imp exp prices rep :
  compare cfg imp exp prices = Ok rep ->
  exists df, DataFrame imp exp = Ok df /\
             r_combined rep = combined cfg df prices /\
             r_dynamic_import_cost rep
             = dynamic_import_cost (combined cfg df prices) /\
             r_dynamic_export_credit rep
             = dynamic_export_credit (combined cfg df prices) /\
             r_total_dynamic_cost rep
             = total_dynamic_cost cfg (combined cfg df prices) /\
             r_weighted_avg_price rep
             = weighted_avg_price (combined cfg df prices).
Proof.
  unfold compare. destruct (DataFrame imp exp) as [df|e]; simpl; intros H.
  - inversion H; subst. simpl. exists df. repeat split.
  - discriminate.
Qed.

Lemma compare_unique cfg imp exp prices :
  NoDup (index imp) -> NoDup (index exp) ->
  exists rep, compare cfg imp exp prices = Ok rep.
Proof.
  intros Hi He. unfold compare, DataFrame.
  apply is_unique_NoDup in Hi, He. rewrite Hi, He. simpl.
  eexists. reflexivity.
Qed.

(** * The hourly aligner *)

(** C1, as the code has it: the frame of the two consumption Series is
    built on the union of their hours and only then inner-joined with the
    prices.  The aligned hours are therefore the price hours that are an
    import hour or an export hour; a row carries NaN for the side that has
    no such hour, and every aligned row has a price. *)
Theorem aligned_hours_union_with_prices :
  forall cfg imp exp prices df,
    DataFrame imp exp = Ok df ->
    (forall h, In h (map hour (combined cfg df prices)) <->
               (In h (index imp) \/ In h (index exp)) /\
               In h (index prices)) /\
    (forall row, In row (combined cfg df prices) ->
       import_kwh row = at_label (hour row) imp /\
       export_kwh row = at_label (hour row) exp /\
       (import_kwh row = None <-> ~ In (hour row) (index imp)) /\
       (export_kwh row = None <-> ~ In (hour row) (index exp)) /\
       In (hour row, price_eur_kwh row) prices).
Proof.
  intros cfg imp exp prices df Hdf. split.
  - intros h. now apply combined_hours.
  - intros row Hrow.
    destruct (combined_rows cfg imp exp prices df row Hdf Hrow)
      as (Hi & He & Hp).
    rewrite Hi, He. repeat split; try apply at_label_None; auto.
Qed.

(** Import at hour 0 only, export at hour 1 only, a price for both. *)
Lemma aligned_hours_union_with_prices_witness :
  (forall h,
      In h (map hour
              (combined script_config
                 [mk_consumption 0 (Some 2) None;
                  mk_consumption 3600 None (Some 1)] ex_prices_two)) <->
      (In h (index ex_import_one) \/ In h (index ex_export_other)) /\
      In h (index ex_prices_two)) /\
  (forall row,
      In row (combined script_config
                [mk_consumption 0 (Some 2) None;
                 mk_consumption 3600 None (Some 1)] ex_prices_two) ->
      import_kwh row = at_label (hour row) ex_import_one /\
      export_kwh row = at_label (hour row) ex_export_other /\
      (import_kwh row = None <-> ~ In (hour row) (index ex_import_one)) /\
      (export_kwh row = None <-> ~ In (hour row) (index ex_export_other)) /\
      In (hour row, price_eur_kwh row) ex_prices_two).
Proof.
  apply (aligned_hours_union_with_prices script_config
           ex_import_one ex_export_other ex_prices_two).
  reflexivity.
Defined.

(** C1 as stated fails: hour 0 has an import value and a price but no
    export value, yet it is an aligned row and its import is charged. *)
Lemma aligned_hour_missing_from_export :
  exists rep,
    compare script_config ex_import_one ex_export_other ex_prices_two
    = Ok rep /\
    In 0%Z (map hour (r_combined rep)) /\
    ~ In 0%Z (index ex_export_other) /\
    ~ r_dynamic_import_cost rep == 0.
Proof.
  eexists. split; [reflexivity|]. split; [|split].
  - simpl. auto.
  - simpl. intros [H|[]]. discriminate.
  - vm_compute. discriminate.
Qed.

(** * The tariff calculator *)

(** C2, as the code has it: only the dynamic tariff is computed from the
    aligned rows.  The fixed tariff is computed from the totals of the two
    hourly Series as the normalizer returned them, before any alignment.
    The two agree on hours and kWh when import and export have the same
    hours and each of them has exactly one price. *)
Theorem fixed_from_series_dynamic_from_aligned :
  forall cfg imp exp prices rep,
    compare cfg imp exp prices = Ok rep ->
    (r_total_import_kwh rep = Qsum (values imp) /\
     r_total_export_kwh rep = Qsum (values exp) /\
     r_fixed_import_cost rep = Qsum (values imp) * FIXED_IMPORT_PRICE cfg /\
     r_fixed_export_credit rep
     = Qsum (values exp) * FIXED_EXPORT_PRICE cfg) /\
    (r_dynamic_import_cost rep
     = nansum (map hourly_import_cost (r_combined rep)) /\
     r_dynamic_export_credit rep
     = nansum (map hourly_export_credit (r_combined rep))) /\
    (index imp = index exp ->
     incl (index imp) (index prices) ->
     NoDup (index prices) ->
     map hour (r_combined rep) = index imp /\
     nansum (map import_kwh (r_combined rep)) = r_total_import_kwh rep /\
     nansum (map export_kwh (r_combined rep)) = r_total_export_kwh rep).
Proof.
  intros cfg imp exp prices rep H.
  destruct (compare_Ok _ _ _ _ _ H) as (df & Hdf & Hc & Hdi & Hde & _).
  split; [|split].
  - unfold compare in H. rewrite Hdf in H. simpl in H.
    inversion H; subst. simpl. repeat split.
  - rewrite Hdi, Hde, Hc. split; reflexivity.
  - intros Hidx Hincl Hnd.
    assert (Htot : r_total_import_kwh rep = Qsum (values imp) /\
                   r_total_export_kwh rep = Qsum (values exp)).
    { unfold compare in H. rewrite Hdf in H. simpl in H.
      inversion H; subst. simpl. split; reflexivity. }
    destruct Htot as [-> ->].
    apply DataFrame_Ok in Hdf. destruct Hdf as (Hi & He & Hdf).
    assert (Hu : union_index (index imp) (index exp) = index imp).
    { unfold union_index. rewrite <- Hidx.
      now rewrite (proj2 (index_eqb_eq _ _) eq_refl). }
    rewrite Hu in Hdf.
    assert (Hj : map fst (join_inner df prices) = df).
    { apply join_inner_all_priced; [exact Hnd|].
      intros r Hr. rewrite Hdf in Hr. apply in_map_iff in Hr.
      destruct Hr as (h & <- & Hh). simpl. now apply Hincl. }
    destruct (combined_columns cfg df prices) as (Ci & Ce & Ch).
    rewrite Hc, Ci, Ce, Ch, Hj, Hdf, !map_map. simpl.
    split; [|split].
    + apply map_id.
    + unfold nansum. rewrite (at_label_own_index imp Hi).
      now rewrite present_map_Some.
    + unfold nansum. rewrite Hidx, (at_label_own_index exp He).
      now rewrite present_map_Some.
Qed.

(** Import, export and prices on the same two hours. *)
Lemma fixed_from_series_dynamic_from_aligned_witness :
  exists rep,
    compare script_config ex_two_hours ex_two_hours ex_two_hours = Ok rep /\
    map hour (r_combined rep) = index ex_two_hours /\
    nansum (map import_kwh (r_combined rep)) = r_total_import_kwh rep /\
    nansum (map export_kwh (r_combined rep)) = r_total_export_kwh rep.
Proof.
  eexists. split; [reflexivity|].
  refine (proj2 (proj2 (fixed_from_series_dynamic_from_aligned
                          script_config ex_two_hours ex_two_hours
                          ex_two_hours _ eq_refl)) eq_refl _ _).
  - intros h Hh. exact Hh.
  - repeat constructor; simpl; intuition discriminate.
Defined.

(** C2 as stated fails: with a price for the first hour only, the fixed
    tariff is charged for both hours (3 kWh) and the dynamic tariff for the
    one aligned hour (1 kWh). *)
Lemma fixed_tariff_counts_unpriced_hours :
  exists rep,
    compare script_config ex_two_hours ex_two_hours ex_price_first_hour
    = Ok rep /\
    map hour (r_combined rep) = [0%Z] /\
    r_hours_with_data rep = 2%nat /\
    r_total_import_kwh rep == 3 /\
    nansum (map import_kwh (r_combined rep)) == 1 /\
    r_fixed_import_cost rep == 3 * 0.25.
Proof.
  eexists. split; [reflexivity|]. repeat split.
Qed.

(** * Errors *)

(** C3, as the code has it: the only check is [if not results], on the
    rows the queries returned.  The function raises exactly when both
    queries return no row; as soon as a row exists it returns a Series, and
    that Series is empty when no row carries a usable value. *)
Theorem no_data_error_only_without_rows :
  forall results results_old,
    (get_statistics_data results results_old = Raise NoStatisticsData <->
     results = [] /\ results_old = []) /\
    (query_results results results_old <> [] ->
     exists out, get_statistics_data results results_old = Ok out) /\
    (query_results results results_old <> [] ->
     (forall r, In r (query_results results results_old) ->
                to_numeric (sum_col r) = None) ->
     (cumulative_mode (query_results results results_old) \/
      forall r, In r (query_results results results_old) ->
                to_numeric (state_col r) = None) ->
     get_statistics_data results results_old = Ok []).
Proof.
  intros results results_old. split; [|split].
  - rewrite <- query_results_nil. split.
    + intros H.
      destruct (query_results results results_old) eqn:E; [reflexivity|].
      destruct (get_statistics_data_rows results results_old)
        as (hc & _ & _ & Hout); [congruence|].
      rewrite Hout in H. discriminate.
    + apply get_statistics_data_no_rows.
  - intros Hne.
    destruct (get_statistics_data_rows _ _ Hne) as (hc & _ & _ & Hout).
    eauto.
  - apply get_statistics_data_unusable.
Qed.

(** One row whose [sum] is not a number: an empty Series, no error. *)
Lemma no_data_error_only_without_rows_witness :
  get_statistics_data [mk_row 0 NonNumeric (Num 5)] [] = Ok [].
Proof.
  apply (proj2 (proj2 (no_data_error_only_without_rows
                         [mk_row 0 NonNumeric (Num 5)] []))).
  - discriminate.
  - intros r [<-|[]]. reflexivity.
  - left. exists (mk_row 0 NonNumeric (Num 5)). split; [now left|reflexivity].
Defined.

(** C3 as stated fails: rows whose values are all NULL, or whose [sum] is
    not a number, come back as an empty Series, not as an error. *)
Lemma unusable_rows_return_empty_series :
  get_statistics_data [mk_row 0 Null Null; mk_row 3600 Null Null] []
  = Ok [] /\
  get_statistics_data [mk_row 0 NonNumeric (Num 5);
                       mk_row 3600 Null (Num 7)] []
  = Ok [].
Proof.
  split; reflexivity.
Qed.

(** C4, as the code has it: nothing checks whether the join is empty.
    Series without repeated hours always align, and when no price hour is
    an import or export hour the aligned frame is empty and the dynamic
    totals are computed from it: no import cost, no export credit, a
    weighted average price of 0 and the base fee as the total. *)
Theorem empty_alignment_is_not_an_error :
  forall cfg imp exp prices,
    NoDup (index imp) -> NoDup (index exp) ->
    exists rep,
      compare cfg imp exp prices = Ok rep /\
      ((forall h, In h (index prices) ->
                  ~ In h (index imp) /\ ~ In h (index exp)) ->
       r_combined rep = [] /\
       r_hours_analyzed rep = 0%nat /\
       r_dynamic_import_cost rep = 0 /\
       r_dynamic_export_credit rep = 0 /\
       r_weighted_avg_price rep = 0 /\
       r_total_dynamic_cost rep == dynamic_base_cost cfg).
Proof.
  intros cfg imp exp prices Hi He.
  destruct (compare_unique cfg imp exp prices Hi He) as (rep & Hrep).
  exists rep. split; [exact Hrep|]. intros Hno.
  unfold compare in Hrep.
  destruct (DataFrame imp exp) as [df|e] eqn:Hdf; [|discriminate].
  simpl in Hrep.
  assert (Hc : combined cfg df prices = []).
  { unfold combined. rewrite join_inner_none_priced; [reflexivity|].
    intros r Hr Hp. apply DataFrame_Ok in Hdf.
    destruct Hdf as (_ & _ & ->). apply in_map_iff in Hr.
    destruct Hr as (h & <- & Hh). simpl in Hp.
    apply union_index_In in Hh. destruct (Hno _ Hp). tauto. }
  inversion Hrep; subst. simpl. rewrite Hc. simpl.
  repeat split. unfold total_dynamic_cost, dynamic_import_cost,
    dynamic_export_credit, nansum. simpl. ring.
Qed.

(** Consumption at hour 0, the only price at hour 1. *)
Lemma empty_alignment_is_not_an_error_witness :
  exists rep,
    compare script_config ex_hour_zero ex_hour_zero ex_price_next_hour
    = Ok rep /\
    ((forall h, In h (index ex_price_next_hour) ->
                ~ In h (index ex_hour_zero) /\ ~ In h (index ex_hour_zero)) ->
     r_combined rep = [] /\
     r_hours_analyzed rep = 0%nat /\
     r_dynamic_import_cost rep = 0 /\
     r_dynamic_export_credit rep = 0 /\
     r_weighted_avg_price rep = 0 /\
     r_total_dynamic_cost rep == dynamic_base_cost script_config).
Proof.
  apply (empty_alignment_is_not_an_error script_config
           ex_hour_zero ex_hour_zero ex_price_next_hour).
  - repeat constructor. simpl. tauto.
  - repeat constructor. simpl. tauto.
Defined.

(** C4 as stated fails: import and export at hour 0 and a price at hour 1
    only; the run completes, and the dynamic total is the base fee of
    12 x 17.01. *)
Lemma empty_alignment_still_totalled :
  exists rep,
    compare script_config ex_hour_zero ex_hour_zero ex_price_next_hour
    = Ok rep /\
    index ex_price_next_hour = [3600%Z] /\
    ~ In 3600%Z (index ex_hour_zero) /\
    r_combined rep = [] /\
    r_dynamic_import_cost rep == 0 /\
    r_total_dynamic_cost rep == 204.12.
Proof.
  eexists. split; [reflexivity|]. repeat split.
  simpl. intros [H|[]]. discriminate.
Qed.

(** * The report *)

(** C5, as the code has it: the statistics the script prints are those of
    [entsoe_prices], the whole fetched Series, whatever the consumption
    Series and the aligned rows are.  The model carries the variance, of
    which the printed standard deviation is the square root. *)
Theorem price_statistics_over_fetched_series :
  forall cfg imp exp prices rep,
    compare cfg imp exp prices = Ok rep ->
    r_min_price rep = Stats.smin (values prices) /\
    r_max_price rep = Stats.smax (values prices) /\
    r_avg_price rep = Stats.mean (values prices) /\
    r_price_var rep = Stats.var (values prices) /\
    r_price_hours rep = length prices.
Proof.
  intros cfg imp exp prices rep H. unfold compare in H.
  destruct (DataFrame imp exp) as [df|e]; [|discriminate].
  simpl in H. inversion H; subst. simpl. repeat split.
Qed.

(** Three price hours, one of them aligned. *)
Lemma price_statistics_over_fetched_series_witness :
  exists rep,
    compare script_config ex_hour_zero ex_hour_zero ex_prices_three
    = Ok rep /\
    r_min_price rep = Stats.smin (values ex_prices_three) /\
    r_max_price rep = Stats.smax (values ex_prices_three) /\
    r_avg_price rep = Stats.mean (values ex_prices_three) /\
    r_price_var rep = Stats.var (values ex_prices_three) /\
    r_price_hours rep = length ex_prices_three.
Proof.
  eexists. split; [reflexivity|].
  apply (price_statistics_over_fetched_series script_config
           ex_hour_zero ex_hour_zero ex_prices_three).
  reflexivity.
Defined.

(** C5 as stated fails: of three price hours only hour 0 is aligned; the
    report gives 0.01 and 0.50 as best and worst price, the aligned hours
    have 0.10 for both. *)
Lemma price_statistics_not_restricted :
  exists rep,
    compare script_config ex_hour_zero ex_hour_zero ex_prices_three
    = Ok rep /\
    map price_eur_kwh (r_combined rep) = [0.10] /\
    r_min_price rep = Some 0.01 /\
    r_max_price rep = Some 0.50 /\
    Stats.smin (map price_eur_kwh (r_combined rep)) = Some 0.10 /\
    Stats.smax (map price_eur_kwh (r_combined rep)) = Some 0.10 /\
    ~ 0.01 == 0.10 /\ ~ 0.50 == 0.10.
Proof.
  eexists. split; [reflexivity|]. repeat split; discriminate.
Qed.

(** * The counter normalizer *)

(** C6: cumulative values that are all present, at strictly ascending
    timestamps and starting from a non-negative value, come back as the
    first value followed by the differences of neighbours, a negative
    difference as 0; the two sample runs of the specification; and no
    entry of any result is negative. *)
Theorem normalizer_successive_deltas :
  (forall results results_old qs,
      strictly_ascending (map start_ts results) ->
      map sum_col results = map Num qs ->
      qs <> [] ->
      0 <= hd 0 qs ->
      get_statistics_data results results_old
      = Ok (combine (map start_ts results) (successive_deltas qs))) /\
  get_statistics_data (hourly_rows [Num 100; Num 110; Num 125]) []
  = Ok [(0%Z, 100); (3600%Z, 10); (7200%Z, 15)] /\
  get_statistics_data (hourly_rows [Num 50; Num 80; Num 20; Num 45]) []
  = Ok [(0%Z, 50); (3600%Z, 30); (7200%Z, 0); (10800%Z, 25)] /\
  (forall results results_old out,
      get_statistics_data results results_old = Ok out ->
      Forall (fun e => 0 <= snd e) out).
Proof.
  split; [|split; [|split]].
  - apply present_deltas.
  - reflexivity.
  - reflexivity.
  - apply get_statistics_data_nonneg.
Qed.

(** The counter 50, 80, 20, 45 with its reset. *)
Lemma normalizer_successive_deltas_witness :
  get_statistics_data (hourly_rows [Num 50; Num 80; Num 20; Num 45]) []
  = Ok (combine (map start_ts
                   (hourly_rows [Num 50; Num 80; Num 20; Num 45]))
                (successive_deltas [50; 80; 20; 45])) /\
  Forall (fun e => 0 <= snd e)
         [(0%Z, 50); (3600%Z, 30); (7200%Z, 0); (10800%Z, 25)].
Proof.
  split.
  - apply (proj1 normalizer_successive_deltas).
    + repeat constructor.
    + reflexivity.
    + discriminate.
    + simpl. discriminate.
  - apply (proj2 (proj2 (proj2 normalizer_successive_deltas))
             (hourly_rows [Num 50; Num 80; Num 20; Num 45]) []).
    reflexivity.
Defined.

(** C7, as the code has it: the index of the result is the timestamps of
    the rows, ascending, one entry for each row that is kept and none
    other; nothing truncates a timestamp to the hour or merges the rows of
    one hour.  There is at most one entry per hour when the rows have at
    most one sample per hour. *)
Theorem normalizer_index_is_sample_timestamps :
  forall results results_old out,
    get_statistics_data results results_old = Ok out ->
    ascending (index out) /\
    Subseq (index out)
           (map start_ts (sort_values (query_results results results_old))) /\
    (forall t, In t (index out) ->
               exists r, In r (query_results results results_old) /\
                         start_ts r = t) /\
    (NoDup (map hour_of (map start_ts (query_results results results_old))) ->
     NoDup (map hour_of (index out))).
Proof.
  intros results results_old out H.
  destruct (query_results results results_old) eqn:E.
  { rewrite get_statistics_data_no_rows in H by assumption. discriminate. }
  rewrite <- E in *.
  destruct (get_statistics_data_rows results results_old)
    as (hc & _ & Hidx & Hout); [congruence|].
  rewrite Hout in H. inversion H; subst out. clear H.
  assert (Hsub : Subseq (index (dropna (clamp_negative hc)))
                   (map start_ts
                      (sort_values (query_results results results_old)))).
  { rewrite <- Hidx, <- (index_clamp_negative hc).
    apply dropna_index_Subseq. }
  split; [|split; [|split]].
  - eapply Subseq_ascending; [exact Hsub|]. apply sort_values_ascending.
  - exact Hsub.
  - intros t Ht. apply (Subseq_In _ _ _ Hsub) in Ht.
    apply in_map_iff in Ht. destruct Ht as (r & Hr & Hin).
    exists r. split; [|exact Hr]. now apply sort_values_In.
  - intros Hnd. eapply Subseq_NoDup.
    + apply Subseq_map. exact Hsub.
    + eapply Permutation_NoDup; [|exact Hnd].
      apply Permutation_map, Permutation_map, Permutation_sym.
      apply sort_values_Permutation.
Qed.

(** Three hourly samples keep their three timestamps. *)
Lemma normalizer_index_is_sample_timestamps_witness :
  ascending [0%Z; 3600%Z; 7200%Z] /\
  Subseq [0%Z; 3600%Z; 7200%Z] [0%Z; 3600%Z; 7200%Z] /\
  (forall t, In t [0%Z; 3600%Z; 7200%Z] ->
             exists r, In r (hourly_rows [Num 100; Num 110; Num 125]) /\
                       start_ts r = t) /\
  (NoDup (map hour_of [0%Z; 3600%Z; 7200%Z]) ->
   NoDup (map hour_of [0%Z; 3600%Z; 7200%Z])).
Proof.
  apply (normalizer_index_is_sample_timestamps
           (hourly_rows [Num 100; Num 110; Num 125]) []
           [(0%Z, 100); (3600%Z, 10); (7200%Z, 15)]).
  reflexivity.
Defined.

(** C7 as stated fails: a sample at half past keeps its timestamp, and two
    samples within one hour give two entries for that hour. *)
Lemma half_hour_samples_not_truncated :
  get_statistics_data [mk_row 0 (Num 1) Null; mk_row 1800 (Num 3) Null] []
  = Ok [(0%Z, 1); (1800%Z, 2)] /\
  hour_of 1800 = 0%Z /\
  hour_of 1800 <> 1800%Z /\
  ~ NoDup (map hour_of [0%Z; 1800%Z]).
Proof.
  split; [reflexivity|]. split; [reflexivity|]. split; [discriminate|].
  intros H. inversion H as [|? ? Hx _]; subst. apply Hx. now left.
Qed.

(** * Dynamic and fixed tariff *)

(** C8: every aligned row is priced at its own hour's market price plus
    the markup, the import cost is the sum of the hourly products, and the
    export credit uses the one export price; the three-hour scenario gives
    0.65, 0.15 and 0.50, where the averaged price would give 0.60. *)
Theorem dynamic_tariff_hour_by_hour :
  (forall cfg df prices,
      Forall (fun row =>
                dynamic_price_total row
                = price_eur_kwh row + BASE_DYNAMIC_KWH cfg /\
                hourly_import_cost row
                = fscale (import_kwh row)
                         (price_eur_kwh row + BASE_DYNAMIC_KWH cfg) /\
                hourly_export_credit row
                = fscale (export_kwh row) (FIXED_EXPORT_PRICE cfg))
             (combined cfg df prices) /\
      dynamic_import_cost (combined cfg df prices)
      = nansum (map (fun row =>
                       fscale (import_kwh row)
                              (price_eur_kwh row + BASE_DYNAMIC_KWH cfg))
                    (combined cfg df prices)) /\
      dynamic_export_credit (combined cfg df prices)
      = nansum (map (fun row =>
                       fscale (export_kwh row) (FIXED_EXPORT_PRICE cfg))
                    (combined cfg df prices))) /\
  (exists rep,
      compare scenario_config scenario_import scenario_export scenario_prices
      = Ok rep /\
      map hour (r_combined rep) = [0%Z; 3600%Z; 7200%Z] /\
      map import_kwh (r_combined rep) = [Some 2; Some 1; Some 0] /\
      map export_kwh (r_combined rep) = [Some 0; Some 0.5; Some 1] /\
      map price_eur_kwh (r_combined rep) = [0.10; 0.30; 0.05] /\
      r_dynamic_import_cost rep == 0.65 /\
      r_dynamic_export_credit rep == 0.15 /\
      r_total_dynamic_cost rep == 0.50 /\
      Qsum (values scenario_import)
      * (Qsum (values scenario_prices) / Stats.count (values scenario_prices)
         + BASE_DYNAMIC_KWH scenario_config)
      == 0.60).
Proof.
  split.
  - intros cfg df prices.
    assert (Hrows : Forall (fun row =>
                dynamic_price_total row
                = price_eur_kwh row + BASE_DYNAMIC_KWH cfg /\
                hourly_import_cost row
                = fscale (import_kwh row)
                         (price_eur_kwh row + BASE_DYNAMIC_KWH cfg) /\
                hourly_export_credit row
                = fscale (export_kwh row) (FIXED_EXPORT_PRICE cfg))
             (combined cfg df prices)).
    { apply Forall_forall. intros row Hrow. apply combined_In in Hrow.
      destruct Hrow as (r & p & _ & _ & ->). simpl. repeat split. }
    split; [exact Hrows|].
    unfold dynamic_import_cost, dynamic_export_credit.
    split; f_equal; apply map_ext_in; intros row Hrow;
      rewrite Forall_forall in Hrows; apply (Hrows row Hrow).
  - eexists. split; [reflexivity|]. repeat split.
Qed.

(** * Gaps in the cumulative counter *)

(** C10: in cumulative mode, with strictly ascending timestamps, a row
    whose [sum] is absent or not a number leaves no entry, and neither does
    the next row that carries a number (nor any row in between); every
    entry that is emitted is the first value or the difference of two
    neighbouring rows that both carry a number, so nothing that accumulated
    across such a row is in any entry, and the call still returns. *)
Theorem absent_value_drops_two_hours :
  forall results results_old out,
    strictly_ascending (map start_ts (query_results results results_old)) ->
    cumulative_mode (query_results results results_old) ->
    get_statistics_data results results_old = Ok out ->
    (forall i r,
        nth_error (query_results results results_old) i = Some r ->
        to_numeric (sum_col r) = None ->
        ~ In (start_ts r) (index out) /\
        (forall k r',
            (i < k)%nat ->
            nth_error (query_results results results_old) k = Some r' ->
            (forall m rm,
                (i < m < k)%nat ->
                nth_error (query_results results results_old) m = Some rm ->
                to_numeric (sum_col rm) = None) ->
            ~ In (start_ts r') (index out))) /\
    (forall t v,
        In (t, v) out ->
        exists j r q,
          nth_error (query_results results results_old) j = Some r /\
          start_ts r = t /\ sum_col r = Num q /\
          match j with
          | O => v = clamp q
          | S j' =>
              exists r' q',
                nth_error (query_results results results_old) j' = Some r' /\
                sum_col r' = Num q' /\ v = clamp (q - q')
          end).
Proof.
  intros results results_old out Hs Hmode H.
  set (rows := query_results results results_old) in *.
  assert (Hne : rows <> []).
  { destruct Hmode as (r & Hin & _). intros E. rewrite E in Hin.
    destruct Hin. }
  destruct (get_statistics_data_rows results results_old Hne)
    as (hc & Hhc & Hidx & Hout).
  fold rows in Hhc, Hidx.
  rewrite (sort_values_sorted_id rows) in Hhc, Hidx
    by now apply strictly_ascending_ascending.
  rewrite Hout in H. inversion H; subst out. clear H Hout.
  assert (Hnd : NoDup (index hc)).
  { rewrite Hidx. now apply strictly_ascending_NoDup. }
  pose proof (cumulative_nth rows hc Hmode Hhc) as Hnth.
  assert (Hown : forall i r,
             nth_error rows i = Some r -> to_numeric (sum_col r) = None ->
             ~ In (start_ts r) (index (dropna (clamp_negative hc)))).
  { intros i r Hi Hnan. apply (nan_row_dropped hc i); [exact Hnd|].
    pose proof (Hnth i r Hi) as E. rewrite Hnan in E.
    destruct i; exact E. }
  assert (Hnext : forall i r r',
             nth_error rows i = Some r -> to_numeric (sum_col r) = None ->
             nth_error rows (S i) = Some r' ->
             ~ In (start_ts r') (index (dropna (clamp_negative hc)))).
  { intros i r r' Hi Hnan Hi'.
    apply (nan_row_dropped hc (S i)); [exact Hnd|].
    pose proof (Hnth (S i) r' Hi') as E. simpl in E.
    rewrite Hi, Hnan, fsub_nan_r in E. exact E. }
  split.
  - intros i r Hi Hnan. split; [now apply (Hown i)|].
    intros k r' Hik Hk Hmid.
    destruct k as [|k']; [lia|].
    destruct (Nat.eq_dec k' i) as [->|Hneq].
    + now apply (Hnext i r r').
    + assert (Hlt : (k' < length rows)%nat).
      { assert (S k' < length rows)%nat by (apply nth_error_Some; congruence).
        lia. }
      destruct (nth_error rows k') as [rm|] eqn:Hm;
        [|apply nth_error_None in Hm; lia].
      apply (Hnext k' rm r' Hm); [|exact Hk].
      apply (Hmid k' rm); [lia|exact Hm].
  - intros t v Hin. apply out_In_hc in Hin.
    destruct Hin as (v0 & Hv0 & Hc).
    apply In_nth_error in Hv0. destruct Hv0 as (j & Hj).
    assert (Hlen : (j < length rows)%nat).
    { rewrite <- (length_map start_ts), <- Hidx. unfold index.
      rewrite length_map. apply nth_error_Some. congruence. }
    destruct (nth_error rows j) as [r|] eqn:Hr;
      [|apply nth_error_None in Hr; lia].
    rewrite (Hnth j r Hr) in Hj. inversion Hj as [[Ht Hv]]. clear Hj.
    exists j, r.
    destruct j as [|j'].
    + destruct (sum_col r) as [|q|] eqn:Hq; simpl in Hv; subst v0;
        try discriminate.
      exists q. repeat split; auto. rewrite Qltb_clamp in Hc. congruence.
    + simpl in Hv.
      destruct (nth_error rows j') as [r'|] eqn:Hr'.
      * destruct (sum_col r) as [|q|] eqn:Hq; simpl in Hv; subst v0;
          try discriminate.
        destruct (sum_col r') as [|q'|] eqn:Hq'; simpl in Hc;
          try discriminate.
        exists q. repeat split; auto. exists r', q'. repeat split; auto.
        change (clamp_value (Some (q - q')) = Some v) in Hc.
        rewrite Qltb_clamp in Hc. congruence.
      * subst v0. rewrite fsub_nan_r in Hc. discriminate.
Qed.

(** The run [10, -, 30, 40]: the hours of the gap and of the 30 are
    missing, and the entries are the first value and 40 - 30. *)
Lemma absent_value_drops_two_hours_witness :
  (forall i r,
      nth_error (hourly_rows [Num 10; Null; Num 30; Num 40]) i = Some r ->
      to_numeric (sum_col r) = None ->
      ~ In (start_ts r) (index [(0%Z, 10); (10800%Z, 10)]) /\
      (forall k r',
          (i < k)%nat ->
          nth_error (hourly_rows [Num 10; Null; Num 30; Num 40]) k
          = Some r' ->
          (forall m rm,
              (i < m < k)%nat ->
              nth_error (hourly_rows [Num 10; Null; Num 30; Num 40]) m
              = Some rm ->
              to_numeric (sum_col rm) = None) ->
          ~ In (start_ts r') (index [(0%Z, 10); (10800%Z, 10)]))) /\
  (forall t v,
      In (t, v) [(0%Z, 10); (10800%Z, 10)] ->
      exists j r q,
        nth_error (hourly_rows [Num 10; Null; Num 30; Num 40]) j = Some r /\
        start_ts r = t /\ sum_col r = Num q /\
        match j with
        | O => v = clamp q
        | S j' =>
            exists r' q',
              nth_error (hourly_rows [Num 10; Null; Num 30; Num 40]) j'
              = Some r' /\
              sum_col r' = Num q' /\ v = clamp (q - q')
        end).
Proof.
  apply (absent_value_drops_two_hours
           (hourly_rows [Num 10; Null; Num 30; Num 40]) []
           [(0%Z, 10); (10800%Z, 10)]).
  - repeat constructor.
  - exists (mk_row 0 (Num 10) Null). split; [now left|reflexivity].
  - reflexivity.
Defined.

(** * Further properties of the script *)

Lemma last_cons_default {A} (rest : list A) : forall q p,
  last (q :: rest) p = last rest q.
Proof.
  induction rest as [|x rest IH]; intros q p; [reflexivity|].
  change (last (q :: x :: rest) p) with (last (x :: rest) p).
  rewrite IH. symmetry. apply IH.
Qed.

Lemma successive_from_telescope qs : forall p,
  Sorted Qle (p :: qs) ->
  Qsum (successive_from p qs) == last qs p - p.
Proof.
  induction qs as [|q rest IH]; intros p Hs.
  - simpl. ring.
  - inversion Hs as [|? ? Hs' Hrel]; subst. inversion Hrel; subst.
    rewrite last_cons_default.
    cbn [successive_from Qsum fold_right]. fold (Qsum (successive_from q rest)).
    unfold clamp. rewrite Qltb_ge by now apply -> Qle_minus_iff.
    rewrite (IH q Hs'). ring.
Qed.

Lemma values_combine {A} (ts : list Z) (vs : list A) :
  length ts = length vs -> values (combine ts vs) = vs.
Proof.
  revert vs. induction ts as [|t ts IH]; intros [|v vs] Hlen;
    simpl in *; try discriminate; [reflexivity|].
  f_equal. apply IH. congruence.
Qed.

(** A counter that never decreases: the deltas add up to its last
    reading. *)
Theorem monotone_counter_total :
  forall results results_old qs,
    strictly_ascending (map start_ts results) ->
    map sum_col results = map Num qs ->
    qs <> [] ->
    Sorted Qle (0 :: qs) ->
    exists out,
      get_statistics_data results results_old = Ok out /\
      index out = map start_ts results /\
      Qsum (values out) == last qs 0.
Proof.
  intros results results_old qs Hs Hq Hne Hmono.
  assert (H0 : 0 <= hd 0 qs).
  { destruct qs as [|q qs]; [congruence|]. simpl.
    inversion Hmono as [|? ? _ Hrel]; subst. now inversion Hrel. }
  assert (Hlen : length (map start_ts results)
                 = length (successive_deltas qs)).
  { rewrite length_map, <- (length_map sum_col), Hq, length_map.
    destruct qs as [|q qs]; simpl; [reflexivity|]. f_equal.
    clear. revert q. induction qs as [|x qs IH]; intros q; simpl;
      [reflexivity|]. f_equal. apply IH. }
  eexists. split; [exact (present_deltas _ _ _ Hs Hq Hne H0)|]. split.
  - unfold index. clear - Hlen.
    revert Hlen. generalize (successive_deltas qs) as ds.
    generalize (map start_ts results) as ts.
    induction ts as [|t ts IH]; intros [|d ds] Hlen; simpl in *;
      try discriminate; [reflexivity|]. f_equal. apply IH. congruence.
  - rewrite (values_combine _ _ Hlen).
    destruct qs as [|q qs]; [congruence|]. simpl.
    inversion Hmono as [|? ? Hs' _]; subst.
    rewrite (successive_from_telescope qs q Hs').
    assert (E : last qs q = match qs with [] => q | _ :: _ => last qs 0 end).
    { destruct qs as [|x qs]; [reflexivity|].
      now rewrite !last_cons_default. }
    rewrite <- E. ring.
Qed.

(** Three hourly readings 100, 110, 125 add up to 125. *)
Lemma monotone_counter_total_witness :
  exists out,
    get_statistics_data (hourly_rows [Num 100; Num 110; Num 125]) []
    = Ok out /\
    index out = map start_ts (hourly_rows [Num 100; Num 110; Num 125]) /\
    Qsum (values out) == last [100; 110; 125] 0.
Proof.
  apply (monotone_counter_total
           (hourly_rows [Num 100; Num 110; Num 125]) []
           [100; 110; 125]).
  - repeat constructor.
  - reflexivity.
  - discriminate.
  - repeat constructor; discriminate.
Defined.



(** A failure to read either entity ends the run with that error. *)
Theorem run_needs_both_entities :
  forall cfg import_results import_results_old
         export_results export_results_old prices,
    (query_results import_results import_results_old = [] \/
     query_results export_results export_results_old = []) ->
    run cfg import_results import_results_old
        export_results export_results_old prices
    = Raise NoStatisticsData.
Proof.
  intros cfg i io e eo prices H. unfold run.
  destruct (query_results i io) eqn:Ei.
  - now rewrite (get_statistics_data_no_rows i io Ei).
  - destruct H as [H|H]; [discriminate|].
    destruct (get_statistics_data_rows i io) as (hc & _ & _ & ->);
      [congruence|].
    simpl. now rewrite (get_statistics_data_no_rows e eo H).
Qed.

(** The import entity has a row, the export entity none. *)
Lemma run_needs_both_entities_witness :
  run script_config (hourly_rows [Num 1]) [] [] [] ex_prices_two
  = Raise NoStatisticsData.
Proof.
  apply (run_needs_both_entities script_config
           (hourly_rows [Num 1]) [] [] [] ex_prices_two).
  right. reflexivity.
Defined.

(** * The queries *)

Lemma in_period_spec a b t :
  in_period a b t = true <-> a <= inject_Z t /\ inject_Z t <= b.
Proof.
  unfold in_period. rewrite andb_true_iff, !Qle_bool_iff. tauto.
Qed.

Lemma select_rows_In ts db e a b r :
  In r (select_rows ts db e a b) <->
  exists s sm t,
    In s (statistics db) /\ ts s = Some t /\ in_period a b t = true /\
    In sm (statistics_meta db) /\ is_entity e s sm = true /\
    r = mk_row t (s_sum s) (s_state s).
Proof.
  unfold select_rows. rewrite in_flat_map. split.
  - intros (s & Hs & Hr). destruct (ts s) as [t|] eqn:Et; [|destruct Hr].
    destruct (in_period a b t) eqn:Ep; [|destruct Hr].
    apply in_map_iff in Hr. destruct Hr as (sm & <- & Hsm).
    apply filter_In in Hsm. destruct Hsm as [Hsm He].
    exists s, sm, t. auto 10.
  - intros (s & sm & t & Hs & Et & Ep & Hsm & He & ->).
    exists s. split; [exact Hs|]. rewrite Et, Ep.
    apply in_map_iff. exists sm. split; [reflexivity|].
    apply filter_In. auto.
Qed.

Lemma selected_false_no_rows ts meta e a b s :
  selected ts meta e a b s = false ->
  match ts s with
  | Some t =>
      if in_period a b t
      then map (fun _ => mk_row t (s_sum s) (s_state s))
               (filter (is_entity e s) meta)
      else []
  | None => []
  end = [].
Proof.
  unfold selected. destruct (ts s) as [t|]; [|reflexivity].
  destruct (in_period a b t); [|reflexivity]. simpl. intros H.
  induction meta as [|sm meta IH]; [reflexivity|].
  simpl in *. apply orb_false_iff in H. destruct H as [H1 H2].
  rewrite H1. now apply IH.
Qed.

Lemma selected_true_rows ts meta e a b s :
  selected ts meta e a b s = true ->
  match ts s with
  | Some t =>
      if in_period a b t
      then map (fun _ => mk_row t (s_sum s) (s_state s))
               (filter (is_entity e s) meta)
      else []
  | None => []
  end <> [].
Proof.
  unfold selected. destruct (ts s) as [t|]; [|discriminate].
  destruct (in_period a b t); [|discriminate]. simpl. intros H.
  apply existsb_exists in H. destruct H as (sm & Hsm & He).
  intros E. apply (f_equal (@length _)) in E. rewrite length_map in E.
  assert (Hin : In sm (filter (is_entity e s) meta))
    by (apply filter_In; auto).
  destruct (filter (is_entity e s) meta); [destruct Hin|discriminate].
Qed.

Lemma select_rows_nil ts db e a b :
  select_rows ts db e a b = [] <->
  forall s, In s (statistics db) ->
            selected ts (statistics_meta db) e a b s = false.
Proof.
  unfold select_rows. induction (statistics db) as [|s l IH]; simpl.
  - split; [intros _ s []|reflexivity].
  - split.
    + intros H. apply app_eq_nil in H. destruct H as [H1 H2].
      intros s' [<-|Hs'].
      * destruct (selected ts (statistics_meta db) e a b s) eqn:E;
          [|reflexivity].
        apply selected_true_rows in E. contradiction.
      * now apply IH.
    + intros H. rewrite selected_false_no_rows by (apply H; now left).
      simpl. apply IH. intros s' Hs'. apply H. now right.
Qed.

Lemma sort_values_nil l : sort_values l = [] <-> l = [].
Proof.
  split; [|intros ->; reflexivity].
  intros H. destruct l as [|r l]; [reflexivity|].
  apply (f_equal (@length _)) in H. rewrite sort_values_length in H.
  discriminate.
Qed.

Lemma get_statistics_data_first results results_old :
  results <> [] ->
  get_statistics_data results results_old = get_statistics_data results [].
Proof.
  intros H. unfold get_statistics_data, query_results.
  destruct results; [congruence|reflexivity].
Qed.

Lemma output_index_Subseq results results_old out :
  get_statistics_data results results_old = Ok out ->
  Subseq (index out)
         (map start_ts (sort_values (query_results results results_old))).
Proof.
  intros H.
  destruct (query_results results results_old) eqn:E.
  { rewrite get_statistics_data_no_rows in H by assumption. discriminate. }
  rewrite <- E in *.
  destruct (get_statistics_data_rows results results_old)
    as (hc & _ & Hidx & Hout); [congruence|].
  rewrite Hout in H. inversion H; subst out.
  rewrite <- Hidx, <- (index_clamp_negative hc).
  apply dropna_index_Subseq.
Qed.

Lemma get_statistics_data_only_no_data results results_old e :
  get_statistics_data results results_old = Raise e ->
  e = NoStatisticsData /\ results = [] /\ results_old = [].
Proof.
  intros H. destruct (query_results results results_old) eqn:E.
  - rewrite get_statistics_data_no_rows in H by assumption.
    inversion H. split; [reflexivity|]. now apply query_results_nil.
  - destruct (get_statistics_data_rows results results_old)
      as (hc & _ & _ & Hout); [congruence|].
    rewrite Hout in H. discriminate.
Qed.

(** Every hour the function returns lies in the requested period and is
    the timestamp of a statistics row of the requested entity; the hours
    are ascending. *)
Theorem statistics_within_period :
  forall db entity_id start_ts end_ts out,
    get_statistics_data_from db entity_id start_ts end_ts = Ok out ->
    ascending (index out) /\
    forall t, In t (index out) ->
      start_ts <= inject_Z t /\ inject_Z t <= end_ts /\
      exists s sm,
        In s (statistics db) /\ In sm (statistics_meta db) /\
        meta_id sm = metadata_id s /\ statistic_id sm = entity_id /\
        (s_start_ts s = Some t \/ s_created_ts s = Some t).
Proof.
  intros db e a b out H. unfold get_statistics_data_from in H.
  pose proof (output_index_Subseq _ _ _ H) as Hsub. split.
  - eapply Subseq_ascending; [exact Hsub|]. apply sort_values_ascending.
  - intros t Ht. apply (Subseq_In _ _ _ Hsub) in Ht.
    apply in_map_iff in Ht. destruct Ht as (r & <- & Hr).
    apply (proj1 (sort_values_In _ _)) in Hr.
    assert (Hq : In r (select_rows s_start_ts db e a b) \/
                 In r (select_rows s_created_ts db e a b)).
    { unfold query_results, query in Hr.
      destruct (sort_values (select_rows s_start_ts db e a b)) eqn:E.
      - right. exact (proj1 (sort_values_In _ _) Hr).
      - left. apply (proj1 (sort_values_In _ _)). rewrite E. exact Hr. }
    assert (Hgen : forall ts, In r (select_rows ts db e a b) ->
               a <= inject_Z (start_ts r) /\ inject_Z (start_ts r) <= b /\
               exists s sm,
                 In s (statistics db) /\ In sm (statistics_meta db) /\
                 meta_id sm = metadata_id s /\ statistic_id sm = e /\
                 ts s = Some (start_ts r)).
    { intros ts Hin. apply select_rows_In in Hin.
      destruct Hin as (s & sm & t & Hs & Et & Ep & Hsm & He & ->).
      apply in_period_spec in Ep. destruct Ep as [Ha Hb].
      unfold is_entity in He. apply andb_true_iff in He.
      destruct He as [Hid Hname]. apply Z.eqb_eq in Hid.
      apply String.eqb_eq in Hname. simpl.
      split; [exact Ha|]. split; [exact Hb|]. exists s, sm. auto 10. }
    destruct Hq as [Hq|Hq]; destruct (Hgen _ Hq)
      as (Ha & Hb & s & sm & Hs & Hsm & Hid & Hname & Hts);
      (split; [exact Ha|]; split; [exact Hb|]; exists s, sm; auto 10).
Qed.

(** The import entity of the sample database, read from 3000 s on. *)
Lemma statistics_within_period_witness :
  ascending [3600%Z; 7200%Z] /\
  forall t, In t [3600%Z; 7200%Z] ->
    3000 <= inject_Z t /\ inject_Z t <= 8000 /\
    exists s sm,
      In s (statistics ex_db) /\ In sm (statistics_meta ex_db) /\
      meta_id sm = metadata_id s /\
      statistic_id sm = "sensor.grid_import"%string /\
      (s_start_ts s = Some t \/ s_created_ts s = Some t).
Proof.
  apply (statistics_within_period ex_db "sensor.grid_import"%string
           3000 8000
           [(3600%Z, 100); (7200%Z, 10)]).
  reflexivity.
Defined.

Lemma select_rows_skip ts before s after meta e a b :
  selected ts meta e a b s = false ->
  select_rows ts (mk_connection (before ++ s :: after) meta) e a b
  = select_rows ts (mk_connection (before ++ after) meta) e a b.
Proof.
  intros H. unfold select_rows. simpl.
  rewrite !flat_map_app. simpl.
  now rewrite (selected_false_no_rows ts meta e a b s H).
Qed.

(** A statistics row that neither query selects (another entity, or both
    timestamps outside the period) does not change the result, and one that
    only the [created_ts] query would select does not either as long as the
    [start_ts] query finds a row.  In particular a reading of the counter
    just before the period is not looked at: the first value returned is
    the counter itself, not what was used since that reading. *)
Theorem unselected_row_ignored :
  forall before s after meta entity_id start_ts end_ts,
    selected s_start_ts meta entity_id start_ts end_ts s = false ->
    (selected s_created_ts meta entity_id start_ts end_ts s = false \/
     select_rows s_start_ts (mk_connection (before ++ after) meta)
                 entity_id start_ts end_ts <> []) ->
    get_statistics_data_from (mk_connection (before ++ s :: after) meta)
                             entity_id start_ts end_ts
    = get_statistics_data_from (mk_connection (before ++ after) meta)
                               entity_id start_ts end_ts.
Proof.
  intros before s after meta e a b Hstart Hor.
  unfold get_statistics_data_from, query.
  rewrite (select_rows_skip s_start_ts _ _ _ _ _ _ _ Hstart).
  destruct Hor as [Hcreated|Hne].
  - now rewrite (select_rows_skip s_created_ts _ _ _ _ _ _ _ Hcreated).
  - assert (Hs : sort_values
                   (select_rows s_start_ts
                      (mk_connection (before ++ after) meta) e a b) <> []).
    { intros E. apply (proj1 (sort_values_nil _)) in E. contradiction. }
    rewrite (get_statistics_data_first _ _ Hs). symmetry.
    apply (get_statistics_data_first _ _ Hs).
Qed.

(** The reading of 90 at the epoch lies before the period: with or without
    it the first value is the counter, 100. *)
Lemma unselected_row_ignored_witness :
  get_statistics_data_from ex_db "sensor.grid_import"%string 3000 8000
  = get_statistics_data_from
      (mk_connection (tl (statistics ex_db)) (statistics_meta ex_db))
      "sensor.grid_import"%string 3000 8000 /\
  get_statistics_data_from ex_db "sensor.grid_import"%string 3000 8000
  = Ok [(3600%Z, 100); (7200%Z, 10)].
Proof.
  split; [|reflexivity].
  apply (unselected_row_ignored []
           (mk_statistics 1 (Some 0%Z) (Some 10%Z) (Num 90) Null)
           (tl (statistics ex_db)) (statistics_meta ex_db)
           "sensor.grid_import"%string 3000 8000).
  - reflexivity.
  - left. reflexivity.
Defined.

(** * Hours *)

Lemma hour_of_le t : (hour_of t <= t)%Z.
Proof. unfold hour_of. apply Z.mul_div_le. lia. Qed.

Lemma hour_of_mono a b : (a <= b)%Z -> (hour_of a <= hour_of b)%Z.
Proof.
  intros H. unfold hour_of.
  apply Z.mul_le_mono_nonneg_l; [lia|]. apply Z.div_le_mono; lia.
Qed.

Lemma hour_of_multiple k : hour_of (3600 * k) = (3600 * k)%Z.
Proof.
  unfold hour_of. f_equal. rewrite Z.mul_comm. apply Z.div_mul. lia.
Qed.

Lemma hour_of_fixed h : hour_of h = h <-> exists k, h = (3600 * k)%Z.
Proof.
  split.
  - intros H. exists (h / 3600)%Z. symmetry. exact H.
  - intros (k & ->). apply hour_of_multiple.
Qed.

Lemma hour_of_idem t : hour_of (hour_of t) = hour_of t.
Proof. apply hour_of_fixed. exists (t / 3600)%Z. reflexivity. Qed.

Lemma first_label_spec rest : forall t,
  In (first_label t rest) (t :: rest) /\
  forall x, In x (t :: rest) -> (first_label t rest <= x)%Z.
Proof.
  unfold first_label. induction rest as [|y rest IH]; intros t; simpl.
  - split; [now left|]. intros x [<-|[]]. lia.
  - destruct (IH (Z.min t y)) as [Hin Hle]. split.
    + destruct Hin as [Hin|Hin]; [|now right; right].
      rewrite <- Hin. destruct (Z.min_spec t y) as [[_ ->]|[_ ->]]; auto.
    + intros x [<-|[<-|Hx]].
      * etransitivity; [apply Hle; now left|]. apply Z.le_min_l.
      * etransitivity; [apply Hle; now left|]. apply Z.le_min_r.
      * apply Hle. now right.
Qed.

Lemma last_label_spec rest : forall t,
  In (last_label t rest) (t :: rest) /\
  forall x, In x (t :: rest) -> (x <= last_label t rest)%Z.
Proof.
  unfold last_label. induction rest as [|y rest IH]; intros t; simpl.
  - split; [now left|]. intros x [<-|[]]. lia.
  - destruct (IH (Z.max t y)) as [Hin Hle]. split.
    + destruct Hin as [Hin|Hin]; [|now right; right].
      rewrite <- Hin. destruct (Z.max_spec t y) as [[_ ->]|[_ ->]]; auto.
    + intros x [<-|[<-|Hx]].
      * etransitivity; [|apply Hle; now left]. apply Z.le_max_l.
      * etransitivity; [|apply Hle; now left]. apply Z.le_max_r.
      * apply Hle. now right.
Qed.

Lemma seq_nth_error n : forall a i,
  (i < n)%nat -> nth_error (seq a n) i = Some (a + i)%nat.
Proof.
  induction n as [|n IH]; intros a i Hi; [lia|].
  destruct i as [|i]; simpl; [f_equal; lia|].
  rewrite IH by lia. f_equal. lia.
Qed.

Lemma hours_between_nth first last k :
  (k <= Z.to_nat ((last - first) / 3600))%nat ->
  nth_error (hours_between first last) k
  = Some (first + 3600 * Z.of_nat k)%Z.
Proof.
  intros Hk. unfold hours_between.
  rewrite nth_error_map, seq_nth_error by lia. reflexivity.
Qed.

Lemma hours_between_length first last :
  length (hours_between first last)
  = S (Z.to_nat ((last - first) / 3600)).
Proof.
  unfold hours_between. now rewrite length_map, length_seq.
Qed.

Lemma hours_between_In first last h :
  In h (hours_between first last) <->
  exists k, (k <= Z.to_nat ((last - first) / 3600))%nat /\
            h = (first + 3600 * Z.of_nat k)%Z.
Proof.
  unfold hours_between. rewrite in_map_iff. split.
  - intros (k & <- & Hk). apply in_seq in Hk. exists k. split; [lia|auto].
  - intros (k & Hk & ->). exists k. split; [reflexivity|].
    apply in_seq. lia.
Qed.

Lemma hours_between_aligned F L h :
  (F <= L)%Z ->
  In h (hours_between (3600 * F) (3600 * L)) <->
  hour_of h = h /\ (3600 * F <= h <= 3600 * L)%Z.
Proof.
  intros HFL. rewrite hours_between_In.
  assert (E : ((3600 * L - 3600 * F) / 3600 = L - F)%Z).
  { rewrite <- Z.mul_sub_distr_l, Z.mul_comm. apply Z.div_mul. lia. }
  rewrite E. split.
  - intros (k & Hk & ->). split.
    + apply hour_of_fixed. exists (F + Z.of_nat k)%Z. lia.
    + lia.
  - intros [Hh Hb]. apply hour_of_fixed in Hh. destruct Hh as (H & ->).
    exists (Z.to_nat (H - F)). split; lia.
Qed.

Lemma hourly_labels_strict first n : forall a,
  StronglySorted Z.lt
    (map (fun k => (first + 3600 * Z.of_nat k)%Z) (seq a n)).
Proof.
  induction n as [|n IH]; intros a; cbn [seq map].
  - constructor.
  - constructor; [apply IH|].
    apply Forall_forall. intros x Hx. apply in_map_iff in Hx.
    destruct Hx as (k & <- & Hk). apply in_seq in Hk. lia.
Qed.

Lemma hours_between_strict first last :
  strictly_ascending (hours_between first last).
Proof.
  apply hourly_labels_strict.
Qed.

(** * The fetched prices *)

Lemma index_labelled {A} (m : Z -> A) hs :
  index (map (fun h => (h, m h)) hs) = hs.
Proof.
  unfold index. rewrite map_map. simpl. apply map_id.
Qed.

Lemma index_ffill_from s : forall prev, index (ffill_from prev s) = index s.
Proof.
  induction s as [|[t [v|]] s IH]; intros prev; simpl;
    [reflexivity| |]; f_equal; apply IH.
Qed.

Lemma index_per_kwh s : index (per_kwh s) = index s.
Proof.
  unfold index, per_kwh. rewrite map_map. reflexivity.
Qed.

Lemma bin_per_kwh h s :
  bin h (per_kwh s) = map (fun q => q / 1000) (bin h s).
Proof.
  unfold bin, per_kwh, values.
  induction s as [|[t [v|]] s IH]; simpl; [reflexivity| |];
    destruct (hour_of t =? h)%Z; simpl; rewrite ?IH; reflexivity.
Qed.

Lemma fetch_shape raw p :
  fetch_entsoe_prices (Returned raw) = Fetched p ->
  exists t rest,
    index raw = t :: rest /\
    p = ffill (map (fun h => (h, Stats.mean (bin h (per_kwh raw))))
                   (hours_between (hour_of (first_label t rest))
                                  (hour_of (last_label t rest)))).
Proof.
  destruct raw as [|[t v] raw]; [discriminate|].
  intros H.
  assert (E : p = ffill (resample_mean (per_kwh ((t, v) :: raw))))
    by (unfold fetch_entsoe_prices in H; congruence).
  exists t, (index raw). split; [reflexivity|]. rewrite E.
  unfold resample_mean. rewrite index_per_kwh. reflexivity.
Qed.

Lemma fetch_index raw p :
  fetch_entsoe_prices (Returned raw) = Fetched p ->
  exists t rest,
    index raw = t :: rest /\
    index p = hours_between (hour_of (first_label t rest))
                            (hour_of (last_label t rest)).
Proof.
  intros H. destruct (fetch_shape raw p H) as (t & rest & Hidx & ->).
  exists t, rest. split; [exact Hidx|].
  unfold ffill. now rewrite index_ffill_from, index_labelled.
Qed.

(** The fetched prices have exactly one entry for every full hour from the
    hour of the earliest sample to the hour of the latest, in ascending
    order: no hour twice, none missing, none off the hour. *)
Theorem fetched_hours_without_gap :
  forall raw p,
    fetch_entsoe_prices (Returned raw) = Fetched p ->
    strictly_ascending (index p) /\
    forall h,
      In h (index p) <->
      hour_of h = h /\
      (exists t1, In t1 (index raw) /\ (hour_of t1 <= h)%Z) /\
      (exists t2, In t2 (index raw) /\ (h <= hour_of t2)%Z).
Proof.
  intros raw p H. destruct (fetch_index raw p H) as (t & rest & Hidx & ->).
  split; [apply hours_between_strict|].
  destruct (first_label_spec rest t) as [Hfin Hfle].
  destruct (last_label_spec rest t) as [Hlin Hlle].
  rewrite Hidx. intros h. unfold hour_of at 1 2.
  rewrite hours_between_aligned
    by (apply Z.div_le_mono; [lia|]; apply Hlle, Hfin).
  fold (hour_of (first_label t rest)) (hour_of (last_label t rest)).
  split.
  - intros (Hh & Hlo & Hhi). split; [exact Hh|]. split.
    + exists (first_label t rest). auto.
    + exists (last_label t rest). auto.
  - intros (Hh & (t1 & Ht1 & Hlo) & (t2 & Ht2 & Hhi)).
    split; [exact Hh|]. split.
    + etransitivity; [|exact Hlo]. apply hour_of_mono. now apply Hfle.
    + etransitivity; [exact Hhi|]. apply hour_of_mono. now apply Hlle.
Qed.

(** Samples at 00:15, 02:40 and 00:45 of the first day. *)
Lemma fetched_hours_without_gap_witness :
  strictly_ascending [0%Z; 3600%Z; 7200%Z] /\
  forall h,
    In h [0%Z; 3600%Z; 7200%Z] <->
    hour_of h = h /\
    (exists t1, In t1 [900%Z; 9600%Z; 2700%Z] /\ (hour_of t1 <= h)%Z) /\
    (exists t2, In t2 [900%Z; 9600%Z; 2700%Z] /\ (h <= hour_of t2)%Z).
Proof.
  apply (fetched_hours_without_gap
           [(900%Z, Some 100); (9600%Z, Some 40); (2700%Z, Some 50)]
           (ffill (resample_mean
                     (per_kwh [(900%Z, Some 100); (9600%Z, Some 40);
                               (2700%Z, Some 50)])))).
  reflexivity.
Defined.

Lemma ffill_from_nth_some g : forall prev i h v,
  nth_error g i = Some (h, Some v) ->
  nth_error (ffill_from prev g) i = Some (h, Some v).
Proof.
  induction g as [|[t [w|]] g IH]; intros prev i h v Hi;
    destruct i as [|i]; simpl in *; try discriminate; auto.
Qed.

Lemma ffill_from_nth_first g prev h :
  nth_error g 0 = Some (h, None) ->
  nth_error (ffill_from prev g) 0 = Some (h, prev).
Proof.
  destruct g as [|[t [w|]] g]; simpl; intros H; inversion H; reflexivity.
Qed.

Lemma ffill_from_nth_none g : forall prev i h,
  nth_error g (S i) = Some (h, None) ->
  exists h' x,
    nth_error (ffill_from prev g) i = Some (h', x) /\
    nth_error (ffill_from prev g) (S i) = Some (h, x).
Proof.
  induction g as [|[t w] g IH]; intros prev i h Hi; [discriminate|].
  destruct i as [|i].
  - simpl in Hi. destruct g as [|[t' w'] g]; [discriminate|].
    simpl in Hi. inversion Hi; subst.
    destruct w as [v|]; simpl; eauto.
  - change (nth_error g (S i) = Some (h, None)) in Hi.
    destruct w as [v|]; simpl.
    + apply (IH (Some v) i h Hi).
    + apply (IH prev i h Hi).
Qed.

Lemma nth_error_labelled {A} (m : Z -> A) hs i h x :
  nth_error (map (fun h => (h, m h)) hs) i = Some (h, x) ->
  nth_error hs i = Some h /\ x = m h.
Proof.
  rewrite nth_error_map. destruct (nth_error hs i) as [h'|]; simpl;
    intros H; inversion H; subst; auto.
Qed.

Lemma nth_error_index {A} (s : Series A) i t x :
  nth_error s i = Some (t, x) -> nth_error (index s) i = Some t.
Proof.
  intros H. unfold index. rewrite nth_error_map, H. reflexivity.
Qed.

Lemma mean_nonempty l : l <> [] <-> Stats.mean l <> None.
Proof.
  destruct l; simpl; split; congruence.
Qed.

(** The value at a position of a forward-filled Series of labelled
    values. *)
Lemma ffill_labelled (m : Z -> float) hs i h x :
  nth_error (ffill (map (fun h => (h, m h)) hs)) i = Some (h, x) ->
  nth_error hs i = Some h /\
  (m h <> None -> x = m h) /\
  (m h = None ->
   match i with
   | O => x = None
   | S j => exists h', nth_error (ffill (map (fun h => (h, m h)) hs)) j
                       = Some (h', x)
   end).
Proof.
  intros H. set (g := map (fun h => (h, m h)) hs) in *.
  assert (Hh : nth_error hs i = Some h).
  { apply nth_error_index in H. unfold ffill in H.
    rewrite index_ffill_from in H. unfold g in H.
    now rewrite index_labelled in H. }
  assert (Hg : nth_error g i = Some (h, m h)).
  { unfold g. rewrite nth_error_map, Hh. reflexivity. }
  unfold ffill in *.
  split; [exact Hh|]. split.
  - intros Hm. destruct (m h) as [v|] eqn:E; [|congruence].
    rewrite (ffill_from_nth_some g None i h v Hg) in H. congruence.
  - intros Hm. rewrite Hm in Hg. destruct i as [|j].
    + rewrite (ffill_from_nth_first g None h Hg) in H. congruence.
    + destruct (ffill_from_nth_none g None j h Hg) as (h' & x0 & Hj & HS).
      rewrite HS in H. inversion H; subst. eauto.
Qed.

(** The fetched price of an hour that has samples with a number is the
    mean of these numbers, divided by 1000; an hour without one repeats the
    price of the hour before, and is NaN when there is no hour before. *)
Theorem fetched_price_of_hour :
  forall raw p,
    fetch_entsoe_prices (Returned raw) = Fetched p ->
    forall h x, In (h, x) p ->
      (bin h raw <> [] ->
       x = Stats.mean (map (fun q => q / 1000) (bin h raw))) /\
      (bin h raw = [] ->
       (forall x', In ((h - 3600)%Z, x') p -> x = x') /\
       (~ In (h - 3600)%Z (index p) -> x = None)).
Proof.
  intros raw p H h x Hin.
  destruct (fetch_index raw p H) as (t & rest & _ & Hidx).
  destruct (fetch_shape raw p H) as (t' & rest' & _ & Hp).
  assert (Hnd : NoDup (index p)).
  { rewrite Hidx. apply strictly_ascending_NoDup, hours_between_strict. }
  set (first := hour_of (first_label t rest)) in *.
  set (last := hour_of (last_label t rest)) in *.
  assert (Hlab : forall i t0 x0, nth_error p i = Some (t0, x0) ->
                   t0 = (first + 3600 * Z.of_nat i)%Z).
  { intros i t0 x0 Hi. pose proof (nth_error_index _ _ _ _ Hi) as Hi'.
    rewrite Hidx in Hi'.
    assert (Hlt : (i < length (hours_between first last))%nat)
      by (apply nth_error_Some; congruence).
    rewrite hours_between_length in Hlt.
    rewrite hours_between_nth in Hi' by lia. congruence. }
  apply In_nth_error in Hin. destruct Hin as (i & Hi).
  pose proof (Hlab _ _ _ Hi) as Hh.
  rewrite Hp in Hi. apply ffill_labelled in Hi.
  destruct Hi as (_ & Hsome & Hnone). rewrite bin_per_kwh in Hsome, Hnone.
  split.
  - intros Hb. apply Hsome. apply mean_nonempty.
    intros E. apply map_eq_nil in E. contradiction.
  - intros Hb. rewrite Hb in Hnone. specialize (Hnone eq_refl).
    destruct i as [|j].
    + split; [|auto]. intros x' Hx'.
      apply In_nth_error in Hx'. destruct Hx' as (k & Hk).
      apply Hlab in Hk. lia.
    + destruct Hnone as (h' & Hj). rewrite <- Hp in Hj.
      pose proof (Hlab _ _ _ Hj) as Hh'.
      assert (E : h' = (h - 3600)%Z) by lia.
      apply nth_error_In in Hj. rewrite E in Hj. split.
      * intros x' Hx'. symmetry.
        exact (index_functional p _ _ _ Hnd Hx' Hj).
      * intros Hno. exfalso. apply Hno. unfold index.
        apply in_map_iff. exists ((h - 3600)%Z, x). auto.
Qed.

(** Two quarter-hour samples in the first hour, none in the second. *)
Lemma fetched_price_of_hour_witness :
  (bin 3600 [(900%Z, Some 100); (9600%Z, Some 40); (2700%Z, Some 50)]
   <> [] ->
   Some (150000 # 2000000)
   = Stats.mean
       (map (fun q => q / 1000)
            (bin 3600 [(900%Z, Some 100); (9600%Z, Some 40);
                       (2700%Z, Some 50)]))) /\
  (bin 3600 [(900%Z, Some 100); (9600%Z, Some 40); (2700%Z, Some 50)]
   = [] ->
   (forall x',
       In ((3600 - 3600)%Z, x')
          (ffill (resample_mean
                    (per_kwh [(900%Z, Some 100); (9600%Z, Some 40);
                              (2700%Z, Some 50)]))) ->
       Some (150000 # 2000000) = x') /\
   (~ In (3600 - 3600)%Z
         (index (ffill (resample_mean
                          (per_kwh [(900%Z, Some 100); (9600%Z, Some 40);
                                    (2700%Z, Some 50)])))) ->
    Some (150000 # 2000000) = None)).
Proof.
  apply (fetched_price_of_hour
           [(900%Z, Some 100); (9600%Z, Some 40); (2700%Z, Some 50)]
           (ffill (resample_mean
                     (per_kwh [(900%Z, Some 100); (9600%Z, Some 40);
                               (2700%Z, Some 50)])))).
  - reflexivity.
  - right. left. reflexivity.
Defined.

Lemma bin_In h s q :
  In q (bin h s) <-> exists t, In (t, Some q) s /\ hour_of t = h.
Proof.
  unfold bin, values. induction s as [|[t [v|]] s IH]; simpl.
  - split; [tauto|]. intros (t & [] & _).
  - destruct (hour_of t =? h)%Z eqn:E; simpl.
    + apply Z.eqb_eq in E. rewrite IH. split.
      * intros [<-|(t' & Hin & Ht')]; eauto.
      * intros (t' & [Heq|Hin] & Ht'); [inversion Heq; auto|eauto].
    + apply Z.eqb_neq in E. rewrite IH. split.
      * intros (t' & Hin & Ht'). eauto.
      * intros (t' & [Heq|Hin] & Ht'); [inversion Heq; subst; tauto|eauto].
  - destruct (hour_of t =? h)%Z; simpl; rewrite IH; split.
    + intros (t' & Hin & Ht'). eauto.
    + intros (t' & [Heq|Hin] & Ht'); [discriminate|eauto].
    + intros (t' & Hin & Ht'). eauto.
    + intros (t' & [Heq|Hin] & Ht'); [discriminate|eauto].
Qed.

Lemma ffill_from_numbers g : forall prev,
  prev <> None ->
  Forall (fun e => snd e <> None) (ffill_from prev g).
Proof.
  induction g as [|[t [v|]] g IH]; intros prev Hp; simpl.
  - constructor.
  - constructor; [simpl; discriminate|]. apply IH. discriminate.
  - constructor; [exact Hp|]. now apply IH.
Qed.

Lemma numbers_Some (s : Series float) :
  Forall (fun e => snd e <> None) s ->
  numbers s = Some (dropna s) /\
  index (dropna s) = index s /\
  s = map (fun e => (fst e, Some (snd e))) (dropna s).
Proof.
  intros H. unfold numbers.
  match goal with
  | |- context [forallb ?f ?l] => assert (E : forallb f l = true)
  end.
  { apply forallb_forall. intros v Hv. unfold values in Hv.
    apply in_map_iff in Hv. destruct Hv as (e & <- & He).
    rewrite Forall_forall in H. specialize (H e He). simpl in H.
    destruct (snd e) eqn:Ee; [reflexivity|]. now destruct H. }
  rewrite E. split; [reflexivity|]. clear E.
  induction H as [|[t [v|]] s Hv Hs IH]; simpl.
  - auto.
  - destruct IH as [I1 I2]. split; [now f_equal|]. now f_equal.
  - simpl in Hv. congruence.
Qed.

(** When a sample of the earliest hour carries a number, so does every
    fetched hour: forward filling leaves no NaN behind. *)
Theorem fetched_prices_are_numbers :
  forall raw p,
    fetch_entsoe_prices (Returned raw) = Fetched p ->
    (exists t v, In (t, Some v) raw /\
                 forall t', In t' (index raw) ->
                            (hour_of t <= hour_of t')%Z) ->
    Forall (fun e => snd e <> None) p /\
    exists prices,
      numbers p = Some prices /\
      index prices = index p /\
      p = map (fun e => (fst e, Some (snd e))) prices.
Proof.
  intros raw p H (t0 & v0 & Hin0 & Hmin0).
  destruct (fetch_shape raw p H) as (t & rest & Hidx & Hp).
  assert (Hall : Forall (fun e => snd e <> None) p).
  { destruct (first_label_spec rest t) as [Hfin Hfle].
    rewrite <- Hidx in Hfin, Hfle.
    assert (E0 : hour_of t0 = hour_of (first_label t rest)).
    { apply Z.le_antisymm; [now apply Hmin0|].
      apply hour_of_mono, Hfle. unfold index. apply in_map_iff.
      exists (t0, Some v0). auto. }
    rewrite Hp. unfold hours_between. cbn [seq map].
    replace (hour_of (first_label t rest) + 3600 * Z.of_nat 0)%Z
      with (hour_of t0) by (rewrite E0; simpl; lia).
    destruct (Stats.mean (bin (hour_of t0) (per_kwh raw))) as [w|] eqn:Em.
    - unfold ffill. simpl. constructor; [simpl; discriminate|].
      apply ffill_from_numbers. discriminate.
    - exfalso. revert Em. apply mean_nonempty.
      rewrite bin_per_kwh. intros E. apply map_eq_nil in E.
      assert (Hb : In v0 (bin (hour_of t0) raw))
        by (apply bin_In; eauto).
      rewrite E in Hb. destruct Hb. }
  split; [exact Hall|].
  exists (dropna p). now apply numbers_Some.
Qed.

(** The three samples all carry a number. *)
Lemma fetched_prices_are_numbers_witness :
  Forall (fun e => snd e <> None)
         (ffill (resample_mean
                   (per_kwh [(900%Z, Some 100); (9600%Z, Some 40);
                             (2700%Z, Some 50)]))) /\
  exists prices,
    numbers (ffill (resample_mean
                      (per_kwh [(900%Z, Some 100); (9600%Z, Some 40);
                                (2700%Z, Some 50)])))
    = Some prices /\
    index prices
    = index (ffill (resample_mean
                      (per_kwh [(900%Z, Some 100); (9600%Z, Some 40);
                                (2700%Z, Some 50)]))) /\
    ffill (resample_mean
             (per_kwh [(900%Z, Some 100); (9600%Z, Some 40);
                       (2700%Z, Some 50)]))
    = map (fun e => (fst e, Some (snd e))) prices.
Proof.
  apply (fetched_prices_are_numbers
           [(900%Z, Some 100); (9600%Z, Some 40); (2700%Z, Some 50)]).
  - reflexivity.
  - exists 900%Z, 100. split; [now left|].
    intros t' [<-|[<-|[<-|[]]]]; vm_compute; discriminate.
Defined.

(** * Order of the aligned hours *)

Lemma Subseq_strict a b :
  Subseq a b -> strictly_ascending b -> strictly_ascending a.
Proof.
  unfold strictly_ascending. intros Hs Hb.
  induction Hs as [|x a b H IH|x a b H IH].
  - constructor.
  - inversion Hb; subst. auto.
  - inversion Hb as [|? ? Hb' Hx]; subst. constructor; auto.
    rewrite Forall_forall in *. intros y Hy. apply Hx.
    eapply Subseq_In; eauto.
Qed.

Lemma ascending_NoDup_strict l :
  ascending l -> NoDup l -> strictly_ascending l.
Proof.
  unfold ascending, strictly_ascending. intros Hs Hnd.
  apply Sorted_StronglySorted in Hs; [|intros x y z; apply Z.le_trans].
  induction Hs as [|x l Hl IH Hx]; constructor.
  - apply IH. now inversion Hnd.
  - inversion Hnd as [|? ? Hnx _]; subst.
    rewrite Forall_forall in *. intros y Hy.
    specialize (Hx y Hy). assert (x <> y) by (intros ->; contradiction).
    lia.
Qed.

Lemma insert_label_strict h l :
  strictly_ascending l -> strictly_ascending (insert_label h l).
Proof.
  unfold strictly_ascending. induction l as [|t l IH]; simpl; intros Hs.
  - repeat constructor.
  - inversion Hs as [|? ? Hl Ht]; subst.
    destruct (h <? t)%Z eqn:E1.
    + apply Z.ltb_lt in E1. constructor; [exact Hs|].
      constructor; [exact E1|]. rewrite Forall_forall in *.
      intros y Hy. specialize (Ht y Hy). lia.
    + destruct (h =? t)%Z eqn:E2; [exact Hs|].
      apply Z.ltb_ge in E1. apply Z.eqb_neq in E2.
      constructor; [now apply IH|].
      rewrite Forall_forall in *. intros y Hy.
      apply insert_label_In in Hy. destruct Hy as [->|Hy]; [lia|auto].
Qed.

Lemma union_index_strict a b :
  strictly_ascending a -> strictly_ascending b ->
  strictly_ascending (union_index a b).
Proof.
  intros Ha Hb. unfold union_index.
  destruct (index_eqb a b); [exact Ha|].
  destruct a as [|x a], b as [|y b]; auto.
  generalize ((x :: a) ++ y :: b) as l. intros l.
  induction l as [|t l IH]; simpl; [constructor|].
  now apply insert_label_strict.
Qed.

Lemma join_inner_hours_Subseq left prices :
  NoDup (index prices) ->
  Subseq (map c_hour (map fst (join_inner left prices))) (map c_hour left).
Proof.
  intros Hnd. unfold join_inner.
  induction left as [|r left IH]; simpl; [constructor|].
  rewrite !map_app.
  destruct (in_dec Z.eq_dec (c_hour r) (index prices)) as [Hin|Hout].
  - destruct (filter_label_single prices (c_hour r) Hnd Hin) as (p & ->).
    simpl. now constructor.
  - rewrite (filter_label_absent prices (c_hour r) Hout). simpl.
    now constructor.
Qed.

Lemma compare_hours_strict cfg imp exp prices rep :
  compare cfg imp exp prices = Ok rep ->
  ascending (index imp) -> ascending (index exp) ->
  NoDup (index prices) ->
  strictly_ascending (map hour (r_combined rep)).
Proof.
  intros H Hi He Hp.
  destruct (compare_Ok _ _ _ _ _ H) as (df & Hdf & Hc & _).
  apply DataFrame_Ok in Hdf. destruct Hdf as (Ni & Ne & Hdf).
  destruct (combined_columns cfg df prices) as (_ & _ & Ch).
  rewrite Hc, Ch.
  eapply Subseq_strict; [now apply join_inner_hours_Subseq|].
  rewrite Hdf, map_map. simpl. rewrite map_id.
  apply union_index_strict; now apply ascending_NoDup_strict.
Qed.

Lemma get_statistics_data_from_hours db e a b out :
  get_statistics_data_from db e a b = Ok out ->
  ascending (index out) /\
  forall t, In t (index out) -> a <= inject_Z t /\ inject_Z t <= b.
Proof.
  intros H. unfold get_statistics_data_from in H.
  pose proof (output_index_Subseq _ _ _ H) as Hsub. split.
  - eapply Subseq_ascending; [exact Hsub|]. apply sort_values_ascending.
  - intros t Ht. apply (Subseq_In _ _ _ Hsub) in Ht.
    apply in_map_iff in Ht. destruct Ht as (r & <- & Hr).
    apply (proj1 (sort_values_In _ _)) in Hr.
    assert (Hq : exists ts, In r (select_rows ts db e a b)).
    { unfold query_results, query in Hr.
      destruct (sort_values (select_rows s_start_ts db e a b)) eqn:E.
      - exists s_created_ts. exact (proj1 (sort_values_In _ _) Hr).
      - exists s_start_ts. apply (proj1 (sort_values_In _ _)).
        rewrite E. exact Hr. }
    destruct Hq as (ts & Hq). apply select_rows_In in Hq.
    destruct Hq as (s & sm & t & _ & _ & Ep & _ & _ & ->).
    now apply in_period_spec in Ep.
Qed.

Lemma numbers_dropna p prices :
  numbers p = Some prices -> prices = dropna p.
Proof.
  unfold numbers.
  match goal with
  | |- context [forallb ?f ?l] => destruct (forallb f l)
  end; congruence.
Qed.

(** * Descriptive statistics *)

Lemma fold_min_spec l : forall x,
  In (fold_left Qmin l x) (x :: l) /\
  forall y, In y (x :: l) -> fold_left Qmin l x <= y.
Proof.
  induction l as [|z l IH]; intros x; simpl.
  - split; [now left|]. intros y [<-|[]]. apply Qle_refl.
  - destruct (IH (Qmin x z)) as [Hin Hle]. split.
    + destruct Hin as [Hin|Hin]; [|now right; right].
      rewrite <- Hin. unfold Qmin, GenericMinMax.gmin.
      destruct (x ?= z); auto.
    + intros y [<-|[<-|Hy]].
      * eapply Qle_trans; [apply Hle; now left|]. apply Q.le_min_l.
      * eapply Qle_trans; [apply Hle; now left|]. apply Q.le_min_r.
      * apply Hle. now right.
Qed.

Lemma fold_max_spec l : forall x,
  In (fold_left Qmax l x) (x :: l) /\
  forall y, In y (x :: l) -> y <= fold_left Qmax l x.
Proof.
  induction l as [|z l IH]; intros x; simpl.
  - split; [now left|]. intros y [<-|[]]. apply Qle_refl.
  - destruct (IH (Qmax x z)) as [Hin Hle]. split.
    + destruct Hin as [Hin|Hin]; [|now right; right].
      rewrite <- Hin. unfold Qmax, GenericMinMax.gmax.
      destruct (x ?= z); auto.
    + intros y [<-|[<-|Hy]].
      * eapply Qle_trans; [|apply Hle; now left]. apply Q.le_max_l.
      * eapply Qle_trans; [|apply Hle; now left]. apply Q.le_max_r.
      * apply Hle. now right.
Qed.

Lemma Qltb_true_pos x y : Qltb x y = true -> 0 < y - x.
Proof.
  unfold Qltb. intros H. apply negb_true_iff in H.
  apply -> Qlt_minus_iff. apply Qnot_le_lt. intros Hle.
  apply Qle_bool_iff in Hle. congruence.
Qed.

Lemma count_cons x l : Stats.count (x :: l) == Stats.count l + 1.
Proof.
  unfold Stats.count. cbn [length].
  rewrite Nat2Z.inj_succ, <- Z.add_1_r, inject_Z_plus. reflexivity.
Qed.

Lemma count_nonneg l : 0 <= Stats.count l.
Proof.
  unfold Stats.count. change 0 with (inject_Z 0).
  rewrite <- Zle_Qle. lia.
Qed.

Lemma count_pos x l : 0 < Stats.count (x :: l).
Proof.
  rewrite count_cons. apply Qlt_le_trans with (y := 0 + 1).
  - reflexivity.
  - apply Qplus_le_compat; [apply count_nonneg|apply Qle_refl].
Qed.

Lemma Qsum_between lo hi l :
  (forall x, In x l -> lo <= x /\ x <= hi) ->
  lo * Stats.count l <= Qsum l /\ Qsum l <= hi * Stats.count l.
Proof.
  induction l as [|x l IH]; intros H.
  - simpl. unfold Stats.count. simpl. split.
    + rewrite Qmult_0_r. apply Qle_refl.
    + rewrite Qmult_0_r. apply Qle_refl.
  - destruct IH as [I1 I2]; [intros y Hy; apply H; now right|].
    destruct (H x) as [Hlo Hhi]; [now left|].
    rewrite count_cons. simpl. split.
    + setoid_replace (lo * (Stats.count l + 1))
        with (lo + lo * Stats.count l) by ring.
      now apply Qplus_le_compat.
    + setoid_replace (hi * (Stats.count l + 1))
        with (hi + hi * Stats.count l) by ring.
      now apply Qplus_le_compat.
Qed.

Lemma Qsum_squares_nonneg m l :
  0 <= Qsum (map (fun x => (x - m) * (x - m)) l).
Proof.
  induction l as [|x l IH]; simpl; [apply Qle_refl|].
  setoid_replace 0 with (0 + 0) by ring.
  apply Qplus_le_compat; [|exact IH].
  destruct (Qlt_le_dec (x - m) 0) as [Hneg|Hpos].
  - setoid_replace ((x - m) * (x - m)) with ((- (x - m)) * (- (x - m)))
      by ring.
    apply Qmult_le_0_compat; setoid_replace 0 with (- 0) by ring;
      apply Qopp_le_compat, Qlt_le_weak; exact Hneg.
  - now apply Qmult_le_0_compat.
Qed.

(** The statistics of the report on a price Series that is not empty: the
    best and the worst price are prices of the Series and bound all others,
    the average lies between them; the variance (the square of the printed
    standard deviation) is not negative, and it is NaN for a single
    price. *)
Theorem price_statistics_bounds :
  forall cfg imp exp prices rep,
    compare cfg imp exp prices = Ok rep ->
    prices <> [] ->
    exists lo hi avg,
      r_min_price rep = Some lo /\ r_max_price rep = Some hi /\
      r_avg_price rep = Some avg /\
      In lo (values prices) /\ In hi (values prices) /\
      (forall x, In x (values prices) -> lo <= x /\ x <= hi) /\
      lo <= avg /\ avg <= hi /\
      (forall v, r_price_var rep = Some v -> 0 <= v) /\
      (r_price_var rep = None <-> length prices = 1%nat).
Proof.
  intros cfg imp exp prices rep H Hne.
  assert (Hrep : r_min_price rep = Stats.smin (values prices) /\
                 r_max_price rep = Stats.smax (values prices) /\
                 r_avg_price rep = Stats.mean (values prices) /\
                 r_price_var rep = Stats.var (values prices)).
  { unfold compare in H. destruct (DataFrame imp exp); [|discriminate].
    simpl in H. inversion H; subst. simpl. auto. }
  destruct Hrep as (-> & -> & -> & ->).
  assert (Hlen : length (values prices) = length prices)
    by (unfold values; apply length_map).
  destruct (values prices) as [|x l] eqn:El.
  { destruct prices; [congruence|discriminate]. }
  rewrite <- Hlen. clear Hlen.
  destruct (fold_min_spec l x) as [Hmin_in Hmin_le].
  destruct (fold_max_spec l x) as [Hmax_in Hmax_le].
  assert (Hb : forall y, In y (x :: l) ->
                 fold_left Qmin l x <= y /\ y <= fold_left Qmax l x)
    by (intros y Hy; split; auto).
  destruct (Qsum_between _ _ _ Hb) as [S1 S2].
  pose proof (count_pos x l) as Hc.
  exists (fold_left Qmin l x), (fold_left Qmax l x),
         (Qsum (x :: l) / Stats.count (x :: l)).
  split; [reflexivity|]. split; [reflexivity|]. split; [reflexivity|].
  split; [exact Hmin_in|]. split; [exact Hmax_in|]. split; [exact Hb|].
  split; [now apply Qle_shift_div_l|].
  split; [apply Qle_shift_div_r; [exact Hc|exact S2]|].
  unfold Stats.var. cbn [Stats.mean].
  destruct (Qltb 1 (Stats.count (x :: l))) eqn:E.
  - split.
    + intros v Hv. inversion Hv; subst. clear Hv.
      apply Qltb_true_pos in E.
      apply Qle_shift_div_l; [exact E|].
      rewrite Qmult_0_l.
      exact (Qsum_squares_nonneg (Qsum (x :: l) / Stats.count (x :: l))
                                 (x :: l)).
    + split; [discriminate|]. intros Hl. exfalso.
      destruct l; [|discriminate]. vm_compute in E. discriminate.
  - split; [discriminate|]. split; [|reflexivity].
    intros _. apply Qltb_false_le in E. unfold Stats.count in E.
    change 1 with (inject_Z 1) in E. rewrite <- Zle_Qle in E.
    simpl length in *. lia.
Qed.

(** Three price hours, one of them aligned. *)
Lemma price_statistics_bounds_witness :
  exists rep,
    compare script_config ex_hour_zero ex_hour_zero ex_prices_three
    = Ok rep /\
    exists lo hi avg,
      r_min_price rep = Some lo /\ r_max_price rep = Some hi /\
      r_avg_price rep = Some avg /\
      In lo (values ex_prices_three) /\ In hi (values ex_prices_three) /\
      (forall x, In x (values ex_prices_three) -> lo <= x /\ x <= hi) /\
      lo <= avg /\ avg <= hi /\
      (forall v, r_price_var rep = Some v -> 0 <= v) /\
      (r_price_var rep = None <-> length ex_prices_three = 1%nat).
Proof.
  eexists. split; [reflexivity|].
  apply (price_statistics_bounds script_config ex_hour_zero ex_hour_zero
           ex_prices_three).
  - reflexivity.
  - discriminate.
Defined.

(** * The weighted average price *)

Lemma weighted_cost_between lo hi (c : list combined_row) :
  (forall row, In row c ->
     hourly_import_cost row
     = fscale (import_kwh row) (dynamic_price_total row) /\
     lo <= dynamic_price_total row /\ dynamic_price_total row <= hi /\
     forall q, import_kwh row = Some q -> 0 <= q) ->
  lo * nansum (map import_kwh c) <= nansum (map hourly_import_cost c) /\
  nansum (map hourly_import_cost c) <= hi * nansum (map import_kwh c).
Proof.
  unfold nansum. induction c as [|row c IH]; intros H.
  - simpl. rewrite !Qmult_0_r. split; apply Qle_refl.
  - destruct IH as [I1 I2]; [intros r Hr; apply H; now right|].
    destruct (H row) as (Hc & Hlo & Hhi & Hq); [now left|].
    cbn [map]. rewrite Hc.
    destruct (import_kwh row) as [q|]; cbn [fscale present Qsum fold_right].
    + fold (Qsum (present (map import_kwh c))).
      fold (Qsum (present (map hourly_import_cost c))).
      specialize (Hq q eq_refl). split.
      * setoid_replace (lo * (q + Qsum (present (map import_kwh c))))
          with (lo * q + lo * Qsum (present (map import_kwh c))) by ring.
        apply Qplus_le_compat; [|exact I1].
        rewrite (Qmult_comm q). now apply Qmult_le_compat_r.
      * setoid_replace (hi * (q + Qsum (present (map import_kwh c))))
          with (hi * q + hi * Qsum (present (map import_kwh c))) by ring.
        apply Qplus_le_compat; [|exact I2].
        rewrite (Qmult_comm q). now apply Qmult_le_compat_r.
    + split; assumption.
Qed.

Lemma run_Ok cfg i io e eo prices rep :
  run cfg i io e eo prices = Ok rep ->
  exists imp exp,
    get_statistics_data i io = Ok imp /\
    get_statistics_data e eo = Ok exp /\
    compare cfg imp exp prices = Ok rep.
Proof.
  unfold run. destruct (get_statistics_data i io) as [imp|]; [|discriminate].
  destruct (get_statistics_data e eo) as [exp|]; [|discriminate].
  simpl. eauto.
Qed.

Lemma at_label_In h (s : Series Q) q : at_label h s = Some q -> In (h, q) s.
Proof.
  induction s as [|[t v] s IH]; simpl; [discriminate|].
  destruct (t =? h)%Z eqn:E.
  - apply Z.eqb_eq in E. intros H. inversion H; subst. now left.
  - intros H. right. now apply IH.
Qed.

(** The imports the normalizer returns are never negative, so the weighted
    average price of a run is a true average: whenever something was
    imported in the aligned hours it lies between any two bounds of the
    hourly prices, markup included, of these hours. *)
Theorem weighted_avg_price_between :
  forall cfg import_results import_results_old
         export_results export_results_old prices rep lo hi,
    run cfg import_results import_results_old
        export_results export_results_old prices = Ok rep ->
    (forall row, In row (r_combined rep) ->
                 lo <= dynamic_price_total row /\
                 dynamic_price_total row <= hi) ->
    0 < nansum (map import_kwh (r_combined rep)) ->
    lo <= r_weighted_avg_price rep /\ r_weighted_avg_price rep <= hi.
Proof.
  intros cfg i io e eo prices rep lo hi H Hb Hpos.
  destruct (run_Ok _ _ _ _ _ _ _ H) as (imp & exp & Hi & He & Hc).
  destruct (compare_Ok _ _ _ _ _ Hc) as (df & Hdf & Hcomb & _ & _ & _ & Hw).
  rewrite Hw. rewrite Hcomb in Hb, Hpos.
  pose proof (get_statistics_data_nonneg _ _ _ Hi) as Hnn.
  destruct (weighted_cost_between lo hi (combined cfg df prices))
    as [W1 W2].
  { intros row Hrow. destruct (Hb row Hrow) as [Hlo Hhi].
    destruct (combined_rows cfg imp exp prices df row Hdf Hrow)
      as (Himp & _ & _).
    apply combined_In in Hrow. destruct Hrow as (r & p & _ & _ & Hr).
    split; [rewrite Hr; reflexivity|]. split; [exact Hlo|].
    split; [exact Hhi|]. intros q Hq.
    rewrite Himp in Hq. apply at_label_In in Hq.
    rewrite Forall_forall in Hnn. exact (Hnn _ Hq). }
  unfold weighted_avg_price.
  destruct (Qltb 0 (nansum (map import_kwh (combined cfg df prices))))
    eqn:E.
  - split.
    + now apply Qle_shift_div_l.
    + now apply Qle_shift_div_r.
  - apply Qltb_false_le in E. exfalso.
    apply (Qlt_irrefl 0). eapply Qlt_le_trans; eauto.
Qed.

(** The three hours of the scenario: between 0.10 and 0.35 per kWh. *)
Lemma weighted_avg_price_between_witness :
  exists rep,
    run scenario_config
        (hourly_rows [Num 2; Num 3; Num 3]) []
        (hourly_rows [Num 0; Num 0.5; Num 1.5]) []
        scenario_prices = Ok rep /\
    0.10 <= r_weighted_avg_price rep /\ r_weighted_avg_price rep <= 0.35.
Proof.
  eexists. split; [reflexivity|].
  apply (weighted_avg_price_between scenario_config
           (hourly_rows [Num 2; Num 3; Num 3]) []
           (hourly_rows [Num 0; Num 0.5; Num 1.5]) []
           scenario_prices).
  - reflexivity.
  - intros row [<-|[<-|[<-|[]]]]; split; vm_compute; discriminate.
  - vm_compute. reflexivity.
Defined.

(** * The comparison *)

Lemma Qltb_lt x y : Qltb x y = true -> x < y.
Proof.
  unfold Qltb. intros H. apply negb_true_iff in H.
  apply Qnot_le_lt. intros Hle. apply Qle_bool_iff in Hle. congruence.
Qed.




(** * The top consumption hours *)

Lemma with_import_In q r c :
  In (q, r) (with_import c) <-> In r c /\ import_kwh r = Some q.
Proof.
  unfold with_import. rewrite in_flat_map. split.
  - intros (r0 & Hr0 & Hin). destruct (import_kwh r0) as [q0|] eqn:E;
      [|destruct Hin]. destruct Hin as [Heq|[]]. inversion Heq; subst. auto.
  - intros [Hr Hq]. exists r. split; [exact Hr|]. rewrite Hq. now left.
Qed.

Lemma without_import_In r c :
  In r (without_import c) <-> In r c /\ import_kwh r = None.
Proof.
  unfold without_import. rewrite filter_In.
  destruct (import_kwh r); intuition discriminate.
Qed.

Lemma import_split_length c :
  (length (with_import c) + length (without_import c))%nat = length c.
Proof.
  unfold with_import, without_import.
  induction c as [|r c IH]; simpl; [reflexivity|].
  destruct (import_kwh r); simpl; lia.
Qed.

Lemma insert_larger_In x y l :
  In y (insert_larger x l) <-> y = x \/ In y l.
Proof.
  induction l as [|z l IH]; simpl.
  - intuition.
  - destruct (Qle_bool (fst z) (fst x)); simpl; rewrite ?IH; intuition.
Qed.

Lemma insert_larger_length x l :
  length (insert_larger x l) = S (length l).
Proof.
  induction l as [|z l IH]; simpl; [reflexivity|].
  destruct (Qle_bool (fst z) (fst x)); simpl; [reflexivity|].
  now rewrite IH.
Qed.

Lemma insert_larger_sorted x l :
  StronglySorted (fun a b : Q * combined_row => fst b <= fst a) l ->
  StronglySorted (fun a b : Q * combined_row => fst b <= fst a)
                 (insert_larger x l).
Proof.
  induction l as [|z l IH]; simpl; intros Hs.
  - repeat constructor.
  - inversion Hs as [|? ? Hl Hz]; subst.
    destruct (Qle_bool (fst z) (fst x)) eqn:E.
    + apply Qle_bool_iff in E. constructor; [exact Hs|].
      constructor; [exact E|]. rewrite Forall_forall in *.
      intros y Hy. eapply Qle_trans; [apply Hz, Hy|exact E].
    + assert (Hlt : fst x < fst z).
      { apply Qnot_le_lt. intros Hle. apply Qle_bool_iff in Hle.
        congruence. }
      constructor; [now apply IH|]. rewrite Forall_forall in *.
      intros y Hy. apply insert_larger_In in Hy.
      destruct Hy as [->|Hy]; [now apply Qlt_le_weak|auto].
Qed.

Lemma sorted_imports l :
  StronglySorted (fun a b : Q * combined_row => fst b <= fst a)
                 (fold_right insert_larger [] l) /\
  length (fold_right insert_larger [] l) = length l /\
  forall y, In y (fold_right insert_larger [] l) <-> In y l.
Proof.
  induction l as [|x l (IS & IL & II)]; simpl.
  - split; [constructor|]. split; [reflexivity|tauto].
  - split; [now apply insert_larger_sorted|].
    split; [now rewrite insert_larger_length, IL|].
    intros y. rewrite insert_larger_In, II. intuition.
Qed.

Lemma ranked_order S N :
  StronglySorted (fun a b : Q * combined_row => fst b <= fst a) S ->
  Forall (fun x => import_kwh (snd x) = Some (fst x)) S ->
  Forall (fun r => import_kwh r = None) N ->
  StronglySorted ranked (map snd S ++ N).
Proof.
  intros HS HF HN. induction HS as [|x S HS' IH Hx]; simpl.
  - induction HN as [|r N Hr HN' IHN]; constructor; auto.
    apply Forall_forall. intros r' Hr'. unfold ranked. rewrite Hr.
    rewrite Forall_forall in HN'. now rewrite (HN' r' Hr').
  - inversion HF as [|? ? Hfx HF']; subst.
    constructor; [now apply IH|].
    apply Forall_forall. intros r Hr. apply in_app_iff in Hr.
    unfold ranked. rewrite Hfx. destruct Hr as [Hr|Hr].
    + apply in_map_iff in Hr. destruct Hr as (y & <- & Hy).
      rewrite Forall_forall in HF', Hx. rewrite (HF' y Hy).
      now apply Hx.
    + rewrite Forall_forall in HN. now rewrite (HN r Hr).
Qed.

Lemma StronglySorted_app_inv {A} (R : A -> A -> Prop) a b :
  StronglySorted R (a ++ b) ->
  StronglySorted R a /\ forall x y, In x a -> In y b -> R x y.
Proof.
  induction a as [|z a IH]; simpl; intros H.
  - split; [constructor|]. intros x y [].
  - inversion H as [|? ? Hs Hz]; subst. destruct (IH Hs) as [I1 I2].
    split.
    + constructor; [exact I1|]. rewrite Forall_forall in *.
      intros y Hy. apply Hz. apply in_app_iff. now left.
    + intros x y [<-|Hx] Hy; [|auto].
      rewrite Forall_forall in Hz. apply Hz. apply in_app_iff. now right.
Qed.

(** The list of the [n] largest imports has [n] rows, or all rows when
    there are fewer; its rows are aligned rows, in descending order of
    import with the rows without an import last; and an aligned row is
    either listed or ranks after every listed row. *)
Theorem nlargest_ranks :
  forall n c,
    length (nlargest n c) = Nat.min n (length c) /\
    (forall row, In row (nlargest n c) -> In row c) /\
    StronglySorted ranked (nlargest n c) /\
    (forall row, In row c ->
       In row (nlargest n c) \/
       forall t, In t (nlargest n c) -> ranked t row) /\
    (length (top_hours c) <= 5)%nat.
Proof.
  intros n c. unfold top_hours, nlargest.
  set (S := fold_right insert_larger [] (with_import c)).
  set (L := map snd S ++ without_import c).
  destruct (sorted_imports (with_import c)) as (HS & HL & HI).
  fold S in HS, HL, HI.
  assert (Hlen : length L = length c).
  { unfold L. rewrite length_app, length_map, HL.
    apply import_split_length. }
  assert (Hin : forall row, In row L <-> In row c).
  { intros row. unfold L. rewrite in_app_iff, without_import_In,
      in_map_iff. split.
    - intros [((q, r) & <- & Hx)|[Hr _]]; [|exact Hr].
      apply HI, with_import_In in Hx. tauto.
    - intros Hr. destruct (import_kwh row) as [q|] eqn:E; [|now right].
      left. exists (q, row). split; [reflexivity|].
      apply HI, with_import_In. auto. }
  assert (Hrank : StronglySorted ranked L).
  { apply ranked_order; [exact HS| |].
    - apply Forall_forall. intros (q, r) Hx.
      apply HI, with_import_In in Hx. simpl. tauto.
    - apply Forall_forall. intros r Hr. now apply without_import_In in Hr. }
  rewrite <- (firstn_skipn n L) in Hrank.
  apply StronglySorted_app_inv in Hrank. destruct Hrank as [Hs Hcross].
  split; [rewrite length_firstn; lia|].
  split.
  { intros row Hrow. apply Hin.
    rewrite <- (firstn_skipn n L). apply in_app_iff. now left. }
  split; [exact Hs|]. split.
  - intros row Hrow. apply Hin in Hrow.
    rewrite <- (firstn_skipn n L) in Hrow. apply in_app_iff in Hrow.
    destruct Hrow as [Hrow|Hrow]; [now left|right].
    intros t Ht. now apply Hcross.
  - rewrite length_firstn. lia.
Qed.

(** * The range of the fetched prices *)

Lemma ffill_from_source g : forall prev h x,
  In (h, Some x) (ffill_from prev g) ->
  prev = Some x \/ exists h', In (h', Some x) g.
Proof.
  induction g as [|[t [v|]] g IH]; intros prev h x Hin; simpl in Hin.
  - destruct Hin.
  - destruct Hin as [Heq|Hin].
    + inversion Heq; subst. right. exists h. now left.
    + destruct (IH _ _ _ Hin) as [Hp|(h' & Hh')].
      * inversion Hp; subst. right. exists t. now left.
      * right. exists h'. now right.
  - destruct Hin as [Heq|Hin].
    + inversion Heq; subst. now left.
    + destruct (IH _ _ _ Hin) as [Hp|(h' & Hh')]; [now left|].
      right. exists h'. now right.
Qed.

Lemma mean_between lo hi l m :
  (forall x, In x l -> lo <= x /\ x <= hi) ->
  Stats.mean l = Some m -> lo <= m /\ m <= hi.
Proof.
  intros Hb Hm. destruct l as [|x l]; [discriminate|].
  simpl in Hm. inversion Hm; subst. clear Hm.
  destruct (Qsum_between _ _ _ Hb) as [S1 S2].
  pose proof (count_pos x l) as Hc. split.
  - now apply Qle_shift_div_l.
  - now apply Qle_shift_div_r.
Qed.

(** Averaging within the hour and forward filling never produce a price
    outside the range of the samples: bounds on the samples, once divided
    by 1000, are bounds on every fetched price. *)
Theorem fetched_prices_within_range :
  forall raw p lo hi,
    fetch_entsoe_prices (Returned raw) = Fetched p ->
    (forall t v, In (t, Some v) raw -> lo <= v / 1000 /\ v / 1000 <= hi) ->
    forall h x, In (h, Some x) p -> lo <= x /\ x <= hi.
Proof.
  intros raw p lo hi H Hb h x Hin.
  destruct (fetch_shape raw p H) as (t & rest & _ & Hp).
  rewrite Hp in Hin. unfold ffill in Hin.
  apply ffill_from_source in Hin.
  destruct Hin as [Hin|(h' & Hin)]; [discriminate|].
  apply in_map_iff in Hin. destruct Hin as (h0 & Heq & _).
  inversion Heq as [[Hh0 Hm]]. clear Heq.
  rewrite bin_per_kwh in Hm.
  apply (mean_between lo hi _ _) in Hm; [exact Hm|].
  intros y Hy. apply in_map_iff in Hy. destruct Hy as (v & <- & Hv).
  apply bin_In in Hv. destruct Hv as (t0 & Ht0 & _).
  exact (Hb t0 v Ht0).
Qed.

(** Samples of 100, 40 and 50 EUR/MWh: the filled second hour, at 0.075
    EUR/kWh, lies between 0.04 and 0.10. *)
Lemma fetched_prices_within_range_witness :
  0.04 <= 150000 # 2000000 /\ 150000 # 2000000 <= 0.10.
Proof.
  apply (fetched_prices_within_range
           [(900%Z, Some 100); (9600%Z, Some 40); (2700%Z, Some 50)]
           (ffill (resample_mean
                     (per_kwh [(900%Z, Some 100); (9600%Z, Some 40);
                               (2700%Z, Some 50)])))
           0.04 0.10 eq_refl) with (h := 3600%Z).
  - intros t v [H|[H|[H|[]]]]; inversion H; subst; split;
      vm_compute; discriminate.
  - right. left. reflexivity.
Defined.

(** * Aligned totals against the totals of the Series *)

Lemma join_inner_rows_Subseq left prices :
  NoDup (index prices) ->
  Subseq (map fst (join_inner left prices)) left.
Proof.
  intros Hnd. unfold join_inner.
  induction left as [|r left IH]; simpl; [constructor|].
  rewrite map_app.
  destruct (in_dec Z.eq_dec (c_hour r) (index prices)) as [Hin|Hout].
  - destruct (filter_label_single prices (c_hour r) Hnd Hin) as (p & ->).
    simpl. now constructor.
  - rewrite (filter_label_absent prices (c_hour r) Hout). simpl.
    now constructor.
Qed.

Lemma present_In q l : In q (present l) <-> In (Some q) l.
Proof.
  induction l as [|[x|] l IH]; simpl.
  - tauto.
  - rewrite IH. split; (intros [H|H]; [left; congruence|now right]).
  - rewrite IH. split; [auto|]. intros [H|H]; [discriminate|exact H].
Qed.

Lemma Qsum_present_Subseq (a b : list float) :
  Subseq a b ->
  (forall q, In (Some q) b -> 0 <= q) ->
  Qsum (present a) <= Qsum (present b).
Proof.
  induction 1 as [|x a b H IH|x a b H IH]; intros Hb.
  - apply Qle_refl.
  - assert (Hle : Qsum (present a) <= Qsum (present b))
      by (apply IH; intros q Hq; apply Hb; now right).
    destruct x as [q|]; simpl; [|exact Hle].
    setoid_replace (Qsum (present a)) with (0 + Qsum (present a)) by ring.
    apply Qplus_le_compat; [apply Hb; now left|exact Hle].
  - assert (Hle : Qsum (present a) <= Qsum (present b))
      by (apply IH; intros q Hq; apply Hb; now right).
    destruct x as [q|]; simpl; [|exact Hle].
    apply Qplus_le_compat; [apply Qle_refl|exact Hle].
Qed.

Lemma reindex_without t v (s : Series Q) U :
  ~ In t U ->
  map (fun h => at_label h ((t, v) :: s)) U = map (fun h => at_label h s) U
  /\ filter (fun h => negb (t =? h)%Z) U = U.
Proof.
  induction U as [|h U IH]; intros Hn; [split; reflexivity|].
  assert (E : (t =? h)%Z = false).
  { apply Z.eqb_neq. intros ->. apply Hn. now left. }
  destruct IH as [I1 I2]; [intros Hin; apply Hn; now right|].
  split.
  - cbn [map]. rewrite I1. f_equal. cbn [at_label]. now rewrite E.
  - cbn [filter]. rewrite E. cbn [negb]. now rewrite I2.
Qed.

Lemma reindex_head_le t v (s : Series Q) U :
  NoDup U -> 0 <= v ->
  Qsum (present (map (fun h => at_label h ((t, v) :: s)) U))
  <= v + Qsum (present (map (fun h => at_label h s)
                            (filter (fun h => negb (t =? h)%Z) U))).
Proof.
  intros Hnd Hv. induction Hnd as [|h U Hh Hnd IH].
  - simpl. rewrite Qplus_0_r. exact Hv.
  - cbn [map filter].
    change (at_label h ((t, v) :: s))
      with (if (t =? h)%Z then Some v else at_label h s).
    destruct (t =? h)%Z eqn:E.
    + apply Z.eqb_eq in E. subst h.
      destruct (reindex_without t v s U Hh) as [E1 E2].
      rewrite E1. cbn [negb]. rewrite E2. simpl. apply Qle_refl.
    + cbn [negb map]. destruct (at_label h s) as [x|]; simpl; [|exact IH].
      setoid_replace
        (v + (x + Qsum (present
                          (map (fun h0 => at_label h0 s)
                               (filter (fun h0 => negb (t =? h0)%Z) U)))))
        with (x + (v + Qsum (present
                               (map (fun h0 => at_label h0 s)
                                    (filter (fun h0 => negb (t =? h0)%Z)
                                            U)))))
        by ring.
      apply Qplus_le_compat; [apply Qle_refl|exact IH].
Qed.

Lemma reindex_sum_le (s : Series Q) : forall U,
  NoDup U ->
  (forall e, In e s -> 0 <= snd e) ->
  Qsum (present (map (fun h => at_label h s) U)) <= Qsum (values s).
Proof.
  induction s as [|[t v] s IH]; intros U Hnd Hs.
  - clear Hnd Hs. induction U; simpl; [apply Qle_refl|assumption].
  - assert (Hv : 0 <= v) by (apply (Hs (t, v)); now left).
    eapply Qle_trans; [now apply reindex_head_le|].
    simpl. apply Qplus_le_compat; [apply Qle_refl|].
    apply IH; [now apply NoDup_filter|].
    intros e He. apply Hs. now right.
Qed.

Lemma sorted_union_strict l :
  strictly_ascending (fold_right insert_label [] l).
Proof.
  induction l as [|t l IH]; simpl; [constructor|].
  now apply insert_label_strict.
Qed.

Lemma union_index_NoDup a b :
  NoDup a -> NoDup b -> NoDup (union_index a b).
Proof.
  intros Ha Hb. unfold union_index.
  destruct (index_eqb a b); [exact Ha|].
  destruct a as [|x a], b as [|y b]; auto.
  apply strictly_ascending_NoDup, sorted_union_strict.
Qed.

Lemma aligned_column_le df prices (s : Series Q)
      (col : consumption_row -> float) U :
  NoDup (index prices) -> NoDup U ->
  (forall e, In e s -> 0 <= snd e) ->
  map col df = map (fun h => at_label h s) U ->
  Qsum (present (map col (map fst (join_inner df prices))))
  <= Qsum (values s).
Proof.
  intros Hp HU Hs Hcol.
  eapply Qle_trans; [|apply (reindex_sum_le s U HU Hs)].
  rewrite <- Hcol. apply Qsum_present_Subseq.
  - apply Subseq_map. now apply join_inner_rows_Subseq.
  - intros q Hq. rewrite Hcol in Hq. apply in_map_iff in Hq.
    destruct Hq as (h & Hh & _). apply at_label_In in Hh.
    exact (Hs _ Hh).
Qed.






Lemma compare_DataFrame cfg imp exp prices df :
  DataFrame imp exp = Ok df ->
  exists rep,
    compare cfg imp exp prices = Ok rep /\
    r_combined rep = combined cfg df prices /\
    r_total_import_kwh rep = Qsum (values imp) /\
    r_total_export_kwh rep = Qsum (values exp) /\
    r_fixed_import_cost rep = fixed_import_cost cfg (Qsum (values imp)) /\
    r_fixed_export_credit rep
    = fixed_export_credit cfg (Qsum (values exp)) /\
    r_dynamic_export_credit rep
    = dynamic_export_credit (combined cfg df prices).
Proof.
  intros Hdf. unfold compare. rewrite Hdf. cbn [bind].
  eexists. split; [reflexivity|]. cbn. auto 10.
Qed.

Lemma aligned_frame cfg imp exp prices :
  NoDup (index imp) -> NoDup (index exp) ->
  exists df rep,
    df = map (fun h => mk_consumption h (at_label h imp) (at_label h exp))
             (union_index (index imp) (index exp)) /\
    DataFrame imp exp = Ok df /\
    compare cfg imp exp prices = Ok rep /\
    r_combined rep = combined cfg df prices /\
    r_total_import_kwh rep = Qsum (values imp) /\
    r_total_export_kwh rep = Qsum (values exp) /\
    r_fixed_import_cost rep = fixed_import_cost cfg (Qsum (values imp)) /\
    r_fixed_export_credit rep
    = fixed_export_credit cfg (Qsum (values exp)) /\
    r_dynamic_export_credit rep
    = dynamic_export_credit (combined cfg df prices).
Proof.
  intros Ui Ue.
  assert (Hdf : DataFrame imp exp
                = Ok (map (fun h => mk_consumption h (at_label h imp)
                                                   (at_label h exp))
                          (union_index (index imp) (index exp))))
    by (apply DataFrame_Ok; auto).
  destruct (compare_DataFrame cfg imp exp prices _ Hdf) as (rep & H).
  eexists. exists rep. split; [reflexivity|]. split; [exact Hdf|exact H].
Qed.

(** When no timestamp occurs twice in the import Series, in the export
    Series or in the prices, the run completes and its aligned rows never
    hold more imported or exported energy than the two Series in total:
    the dynamic tariff is charged on at most the kWh of the fixed tariff,
    and with an export price that is not negative it credits at most the
    export credit of the fixed tariff. *)
Theorem aligned_totals_within_series_totals :
  forall cfg import_results import_results_old
         export_results export_results_old prices imp exp,
    get_statistics_data import_results import_results_old = Ok imp ->
    get_statistics_data export_results export_results_old = Ok exp ->
    NoDup (index imp) -> NoDup (index exp) -> NoDup (index prices) ->
    exists rep,
      run cfg import_results import_results_old
          export_results export_results_old prices = Ok rep /\
      nansum (map import_kwh (r_combined rep)) <= r_total_import_kwh rep /\
      nansum (map export_kwh (r_combined rep)) <= r_total_export_kwh rep /\
      (0 <= FIXED_EXPORT_PRICE cfg ->
       r_dynamic_export_credit rep <= r_fixed_export_credit rep).
Proof.
  intros cfg i io e eo prices imp exp Hi He Ui Ue Hp.
  pose proof (get_statistics_data_nonneg _ _ _ Hi) as Ni.
  pose proof (get_statistics_data_nonneg _ _ _ He) as Ne.
  rewrite Forall_forall in Ni, Ne.
  destruct (aligned_frame cfg imp exp prices Ui Ue)
    as (df & rep & Hdf & _ & Hc & Hcomb & Ti & Te & _ & Tc & Hde).
  exists rep. split.
  { unfold run. rewrite Hi, He. exact Hc. }
  pose proof (union_index_NoDup _ _ Ui Ue) as HU.
  destruct (combined_columns cfg df prices) as (Ci & Ce & _).
  assert (Himp : nansum (map import_kwh (r_combined rep))
                 <= Qsum (values imp)).
  { rewrite Hcomb, Ci. unfold nansum.
    apply (aligned_column_le df prices imp c_import_kwh _ Hp HU Ni).
    rewrite Hdf, map_map. reflexivity. }
  assert (Hexp : nansum (map export_kwh (r_combined rep))
                 <= Qsum (values exp)).
  { rewrite Hcomb, Ce. unfold nansum.
    apply (aligned_column_le df prices exp c_export_kwh _ Hp HU Ne).
    rewrite Hdf, map_map. reflexivity. }
  rewrite Ti, Te, Tc. split; [exact Himp|]. split; [exact Hexp|].
  intros Hprice. rewrite Hde. unfold dynamic_export_credit.
  assert (E : map hourly_export_credit (combined cfg df prices)
              = map (fun v => fscale v (FIXED_EXPORT_PRICE cfg))
                    (map export_kwh (combined cfg df prices))).
  { unfold combined. rewrite !map_map. reflexivity. }
  rewrite E, nansum_scale. rewrite <- Hcomb.
  unfold fixed_export_credit. now apply Qmult_le_compat_r.
Qed.

(** Two hours of consumption, a price for the first hour only: 1 kWh of
    the 3 kWh is aligned. *)
Lemma aligned_totals_within_series_totals_witness :
  exists rep,
    run script_config
        (hourly_rows [Num 1; Num 3]) [] (hourly_rows [Num 1; Num 3]) []
        ex_price_first_hour = Ok rep /\
    nansum (map import_kwh (r_combined rep)) <= r_total_import_kwh rep /\
    nansum (map export_kwh (r_combined rep)) <= r_total_export_kwh rep /\
    (0 <= FIXED_EXPORT_PRICE script_config ->
     r_dynamic_export_credit rep <= r_fixed_export_credit rep).
Proof.
  apply (aligned_totals_within_series_totals script_config
           (hourly_rows [Num 1; Num 3]) [] (hourly_rows [Num 1; Num 3]) []
           ex_price_first_hour ex_two_hours ex_two_hours).
  - vm_compute. reflexivity.
  - vm_compute. reflexivity.
  - apply is_unique_NoDup. reflexivity.
  - apply is_unique_NoDup. reflexivity.
  - apply is_unique_NoDup. reflexivity.
Defined.

(** * The fixed tariff, itemised over the aligned hours *)




(** * The weighted average price and the import cost *)

Lemma nansum_import_nonneg (c : list combined_row) :
  (forall row q, In row c -> import_kwh row = Some q -> 0 <= q) ->
  0 <= nansum (map import_kwh c).
Proof.
  unfold nansum. induction c as [|row c IH]; intros H.
  - apply Qle_refl.
  - assert (Hc : 0 <= Qsum (present (map import_kwh c)))
      by (apply IH; intros r q Hr; apply H; now right).
    cbn [map]. destruct (import_kwh row) as [q|] eqn:E;
      cbn [present Qsum fold_right]; [|exact Hc].
    fold (Qsum (present (map import_kwh c))).
    setoid_replace 0 with (0 + 0) by ring.
    apply Qplus_le_compat; [|exact Hc]. apply (H row); [now left|exact E].
Qed.

Lemma no_import_no_cost (c : list combined_row) :
  (forall row, In row c ->
     hourly_import_cost row
     = fscale (import_kwh row) (dynamic_price_total row)) ->
  (forall row q, In row c -> import_kwh row = Some q -> 0 <= q) ->
  nansum (map import_kwh c) <= 0 ->
  nansum (map hourly_import_cost c) == 0.
Proof.
  induction c as [|row c IH]; intros Hcost Hnn Hsum; [reflexivity|].
  assert (Hc : 0 <= nansum (map import_kwh c))
    by (apply nansum_import_nonneg; intros r q Hr; apply Hnn; now right).
  assert (Hrow : hourly_import_cost row
                 = fscale (import_kwh row) (dynamic_price_total row))
    by (apply Hcost; now left).
  unfold nansum in *. cbn [map] in *. rewrite Hrow.
  destruct (import_kwh row) as [q|] eqn:E;
    cbn [fscale present Qsum fold_right] in *.
  - fold (Qsum (present (map import_kwh c))) in Hsum.
    fold (Qsum (present (map hourly_import_cost c))).
    assert (Hq : 0 <= q) by (apply (Hnn row); [now left|exact E]).
    assert (Hq0 : q == 0).
    { apply Qle_antisym; [|exact Hq].
      apply Qle_trans with (q + Qsum (present (map import_kwh c)));
        [|exact Hsum].
      setoid_replace q with (q + 0) at 1 by ring.
      apply Qplus_le_compat; [apply Qle_refl|exact Hc]. }
    assert (Hrest : Qsum (present (map import_kwh c)) <= 0).
    { apply Qle_trans with (q + Qsum (present (map import_kwh c)));
        [|exact Hsum].
      setoid_replace (Qsum (present (map import_kwh c)))
        with (0 + Qsum (present (map import_kwh c))) at 1 by ring.
      apply Qplus_le_compat; [exact Hq|apply Qle_refl]. }
    rewrite IH; [rewrite Hq0; ring| | |exact Hrest].
    + intros r Hr. apply Hcost. now right.
    + intros r q' Hr. apply Hnn. now right.
  - apply IH; [| |exact Hsum].
    + intros r Hr. apply Hcost. now right.
    + intros r q' Hr. apply Hnn. now right.
Qed.

(** The weighted average price the run prints, times the kWh imported in
    the aligned hours, is the dynamic import cost of the run, also when
    the average is printed as 0 because nothing was imported: the
    normalizer returns no negative import, so the cost is 0 then. *)
Theorem weighted_avg_price_times_import :
  forall cfg import_results import_results_old
         export_results export_results_old prices rep,
    run cfg import_results import_results_old
        export_results export_results_old prices = Ok rep ->
    r_weighted_avg_price rep * nansum (map import_kwh (r_combined rep))
    == r_dynamic_import_cost rep.
Proof.
  intros cfg i io e eo prices rep H.
  destruct (run_Ok _ _ _ _ _ _ _ H) as (imp & exp & Hi & He & Hc).
  destruct (compare_Ok _ _ _ _ _ Hc)
    as (df & Hdf & Hcomb & Hcost & _ & _ & Hw).
  rewrite Hw, Hcomb, Hcost. unfold weighted_avg_price, dynamic_import_cost.
  destruct (Qltb 0 (nansum (map import_kwh (combined cfg df prices))))
    eqn:E.
  - apply Qltb_lt in E. field. intros E0. rewrite E0 in E.
    exact (Qlt_irrefl 0 E).
  - apply Qltb_false_le in E. rewrite Qmult_0_l. symmetry.
    pose proof (get_statistics_data_nonneg _ _ _ Hi) as Hnn.
    rewrite Forall_forall in Hnn.
    apply no_import_no_cost; [| |exact E].
    + intros row Hrow. apply combined_In in Hrow.
      destruct Hrow as (r & p & _ & _ & ->). reflexivity.
    + intros row q Hrow Hq.
      destruct (combined_rows cfg imp exp prices df row Hdf Hrow)
        as (Himp & _ & _).
      rewrite Himp in Hq. apply at_label_In in Hq. exact (Hnn _ Hq).
Qed.

(** The three hours of the scenario: 3 kWh imported for 0.65 in all. *)
Lemma weighted_avg_price_times_import_witness :
  exists rep,
    run scenario_config
        (hourly_rows [Num 2; Num 3; Num 3]) []
        (hourly_rows [Num 0; Num 0.5; Num 1.5]) []
        scenario_prices = Ok rep /\
    0 < nansum (map import_kwh (r_combined rep)) /\
    r_weighted_avg_price rep * nansum (map import_kwh (r_combined rep))
    == r_dynamic_import_cost rep.
Proof.
  eexists. split; [reflexivity|]. split; [vm_compute; reflexivity|].
  apply (weighted_avg_price_times_import scenario_config
           (hourly_rows [Num 2; Num 3; Num 3]) []
           (hourly_rows [Num 0; Num 0.5; Num 1.5]) []
           scenario_prices).
  reflexivity.
Defined.

(** * The aligned hours of a run against the database *)

(** With the two entities read from the database, the prices fetched and
    holding a number for every hour, and no timestamp twice in the import
    or in the export Series, the comparison completes and its aligned rows
    are in strictly ascending order of their hours (so no hour twice);
    every aligned hour is a full hour, lies in the requested period, and
    lies between the hours of the earliest and the latest price sample.
    A reading that is not on the hour is never aligned. *)
Theorem aligned_hours_strictly_ascending :
  forall cfg db import_entity export_entity start_ts end_ts
         raw p prices imp exp,
    get_statistics_data_from db import_entity start_ts end_ts = Ok imp ->
    get_statistics_data_from db export_entity start_ts end_ts = Ok exp ->
    NoDup (index imp) -> NoDup (index exp) ->
    fetch_entsoe_prices (Returned raw) = Fetched p ->
    numbers p = Some prices ->
    exists rep,
      compare cfg imp exp prices = Ok rep /\
      strictly_ascending (map hour (r_combined rep)) /\
      forall h, In h (map hour (r_combined rep)) ->
        hour_of h = h /\
        start_ts <= inject_Z h /\ inject_Z h <= end_ts /\
        (exists t1, In t1 (index raw) /\ (hour_of t1 <= h)%Z) /\
        (exists t2, In t2 (index raw) /\ (h <= hour_of t2)%Z).
Proof.
  intros cfg db ie ee a b raw p prices imp exp Hi He Ui Ue Hf Hn.
  pose proof (numbers_dropna _ _ Hn) as ->.
  destruct (aligned_frame cfg imp exp (dropna p) Ui Ue)
    as (df & rep & _ & Hdf & Hc & Hcomb & _).
  exists rep. split; [exact Hc|].
  destruct (get_statistics_data_from_hours _ _ _ _ _ Hi) as [Ai Pi].
  destruct (get_statistics_data_from_hours _ _ _ _ _ He) as [Ae Pe].
  destruct (fetch_index raw p Hf) as (t & rest & Hidx & Hgrid).
  assert (Hsub : Subseq (index (dropna p)) (index p))
    by apply dropna_index_Subseq.
  assert (Hnd : NoDup (index (dropna p))).
  { apply strictly_ascending_NoDup. eapply Subseq_strict; [exact Hsub|].
    rewrite Hgrid. apply hours_between_strict. }
  split; [now apply (compare_hours_strict cfg imp exp (dropna p))|].
  intros h Hh. rewrite Hcomb in Hh.
  apply (combined_hours cfg imp exp (dropna p) df h Hdf) in Hh.
  destruct Hh as [Hcons Hprice].
  apply (Subseq_In _ _ _ Hsub) in Hprice.
  destruct (first_label_spec rest t) as [Hfin Hfle].
  destruct (last_label_spec rest t) as [Hlin Hlle].
  rewrite Hgrid in Hprice. unfold hour_of at 1 2 in Hprice.
  apply hours_between_aligned in Hprice;
    [|apply Z.div_le_mono; [lia|]; apply Hlle, Hfin].
  fold (hour_of (first_label t rest)) (hour_of (last_label t rest))
    in Hprice.
  destruct Hprice as (Hon & Hlo & Hhi).
  split; [exact Hon|].
  assert (Hper : a <= inject_Z h /\ inject_Z h <= b)
    by (destruct Hcons as [Hc'|Hc']; [now apply Pi|now apply Pe]).
  destruct Hper as [Ha Hb]. split; [exact Ha|]. split; [exact Hb|].
  rewrite Hidx. split.
  - exists (first_label t rest). auto.
  - exists (last_label t rest). auto.
Qed.

(** The sample database with three price samples. *)
Lemma aligned_hours_strictly_ascending_witness :
  exists rep,
    compare script_config
            [(0%Z, 90); (3600%Z, 10); (7200%Z, 10)] [(3600%Z, 7)]
            (dropna (ffill (resample_mean
               (per_kwh [(900%Z, Some 100); (9600%Z, Some 40);
                         (2700%Z, Some 50)]))))
    = Ok rep /\
    strictly_ascending (map hour (r_combined rep)) /\
    forall h, In h (map hour (r_combined rep)) ->
      hour_of h = h /\
      0 <= inject_Z h /\ inject_Z h <= 10000 /\
      (exists t1, In t1 [900%Z; 9600%Z; 2700%Z] /\ (hour_of t1 <= h)%Z) /\
      (exists t2, In t2 [900%Z; 9600%Z; 2700%Z] /\ (h <= hour_of t2)%Z).
Proof.
  apply (aligned_hours_strictly_ascending script_config ex_db
           "sensor.grid_import"%string "sensor.grid_export"%string
           0 10000
           [(900%Z, Some 100); (9600%Z, Some 40); (2700%Z, Some 50)]
           (ffill (resample_mean
              (per_kwh [(900%Z, Some 100); (9600%Z, Some 40);
                        (2700%Z, Some 50)])))).
  - vm_compute. reflexivity.
  - vm_compute. reflexivity.
  - apply is_unique_NoDup. reflexivity.
  - apply is_unique_NoDup. reflexivity.
  - vm_compute. reflexivity.
  - vm_compute. reflexivity.
Defined.

(** * The queries on a table without a timestamp column *)

Lemma query_nil ts db e a b :
  query ts db e a b = [] <->
  forall s, In s (statistics db) ->
            selected ts (statistics_meta db) e a b s = false.
Proof.
  unfold query. rewrite sort_values_nil. apply select_rows_nil.
Qed.

(** The function ends with the no-data error exactly when the table has
    both timestamp columns and no statistics row of the entity has its
    [start_ts] or its [created_ts] in the period.  It ends with the
    uncaught "no such column" error of the database exactly when the table
    lacks [start_ts], or lacks [created_ts] and no row of the entity has
    its [start_ts] in the period: the query on [created_ts] is only
    executed when the first query found nothing.  On a table with both
    columns it is [get_statistics_data_from]. *)
Theorem statistics_on_schema :
  forall columns db entity_id start_ts end_ts,
    (get_statistics_data_on columns db entity_id start_ts end_ts
     = Read (Raise NoStatisticsData) <->
     has_start_ts columns = true /\ has_created_ts columns = true /\
     forall s, In s (statistics db) ->
       selected s_start_ts (statistics_meta db) entity_id start_ts end_ts s
       = false /\
       selected s_created_ts (statistics_meta db) entity_id start_ts end_ts s
       = false) /\
    (get_statistics_data_on columns db entity_id start_ts end_ts
     = OperationalError <->
     has_start_ts columns = false \/
     (has_created_ts columns = false /\
      forall s, In s (statistics db) ->
        selected s_start_ts (statistics_meta db) entity_id start_ts end_ts s
        = false)) /\
    (has_start_ts columns = true -> has_created_ts columns = true ->
     get_statistics_data_on columns db entity_id start_ts end_ts
     = Read (get_statistics_data_from db entity_id start_ts end_ts)).
Proof.
  intros [st cr] db e a b. unfold get_statistics_data_on.
  cbn [has_start_ts has_created_ts].
  pose proof (query_nil s_start_ts db e a b) as N1.
  pose proof (query_nil s_created_ts db e a b) as N2.
  assert (Hrows : forall r l, get_statistics_data (r :: l) []
                              <> Raise NoStatisticsData).
  { intros r l H. apply get_statistics_data_only_no_data in H.
    destruct H as (_ & H & _). discriminate. }
  destruct st.
  - destruct (query s_start_ts db e a b) as [|r l] eqn:E1.
    + pose proof (proj1 N1 eq_refl) as S1.
      destruct cr.
      * split; [|split].
        -- split.
           ++ intros H. inversion H as [H'].
              apply get_statistics_data_only_no_data in H'.
              destruct H' as (_ & _ & H2).
              pose proof (proj1 N2 H2) as S2. auto.
           ++ intros (_ & _ & H). f_equal.
              apply get_statistics_data_no_rows, query_results_nil.
              split; [reflexivity|]. apply N2. intros s Hs.
              now apply H.
        -- split; [discriminate|].
           intros [H|[H _]]; discriminate.
        -- intros _ _. unfold get_statistics_data_from. now rewrite E1.
      * split; [|split].
        -- split; [discriminate|]. intros (_ & H & _). discriminate.
        -- split; auto.
        -- intros _ H. discriminate.
    + assert (S1 : ~ forall s, In s (statistics db) ->
                     selected s_start_ts (statistics_meta db) e a b s
                     = false).
      { intros H. apply N1 in H. discriminate. }
      split; [|split].
      * split.
        -- intros H. inversion H as [H']. now apply Hrows in H'.
        -- intros (_ & _ & H). exfalso. apply S1. intros s Hs.
           now apply H.
      * split; [discriminate|].
        intros [H|[_ H]]; [discriminate|contradiction].
      * intros _ _. unfold get_statistics_data_from. rewrite E1.
        reflexivity.
  - split; [|split].
    + split; [discriminate|]. intros (H & _). discriminate.
    + split; auto.
    + intros H. discriminate.
Qed.

(** The sample database: an entity it does not know, on a table with both
    columns and on a table without [created_ts]; a known entity on a table
    without [created_ts], and on a table without [start_ts]. *)
Lemma statistics_on_schema_witness :
  get_statistics_data_on (mk_schema true true) ex_db
                         "sensor.unknown"%string 0 10000
  = Read (Raise NoStatisticsData) /\
  get_statistics_data_on (mk_schema true false) ex_db
                         "sensor.unknown"%string 0 10000
  = OperationalError /\
  get_statistics_data_on (mk_schema true false) ex_db
                         "sensor.grid_export"%string 0 10000
  = Read (Ok [(3600%Z, 7)]) /\
  get_statistics_data_on (mk_schema false false) ex_db
                         "sensor.grid_export"%string 0 10000
  = OperationalError.
Proof.
  split; [|split; [|split]].
  - apply (proj2 (proj1 (statistics_on_schema
                           (mk_schema true true) ex_db
                           "sensor.unknown"%string 0 10000))).
    split; [reflexivity|]. split; [reflexivity|].
    intros s Hs. simpl in Hs.
    destruct Hs as [<-|[<-|[<-|[<-|[]]]]]; split; reflexivity.
  - apply (proj2 (proj1 (proj2 (statistics_on_schema
                                  (mk_schema true false) ex_db
                                  "sensor.unknown"%string 0 10000)))).
    right. split; [reflexivity|].
    intros s Hs. simpl in Hs.
    destruct Hs as [<-|[<-|[<-|[<-|[]]]]]; reflexivity.
  - vm_compute. reflexivity.
  - apply (proj2 (proj1 (proj2 (statistics_on_schema
                                  (mk_schema false false) ex_db
                                  "sensor.grid_export"%string 0 10000)))).
    left. reflexivity.
Defined.
